(** * Three-phase power factor monitor: the measurement core

    A shallow embedding of [arduino/power_factor_monitor.ino]: the per-phase
    sampling loop and metric derivation ([measurePhase]) and the cross-phase
    aggregation and low-power-factor alert of [loop].

    Arithmetic.  The sketch computes in C [float] and [double].  Here every
    such quantity is a real number ([R]) and every operation is exact, which
    is also how the specification words its data model ("all real numbers").
    Rounding, NaN and infinities are therefore outside this model; what a
    division by zero or the square root of a negative number would do is
    captured separately by the checked variant [measurePhaseChecked], in
    which such an operation fails, and what rounding does at a given input
    is computed in a second embedding, [Binary32], in which a [float] is a
    binary32 number.

    Time.  The busy wait on [micros()] that spaces the samples has no effect
    on the values computed and is left out of [measurePhase]: the k-th pass
    of the sampling loop simply reads the k-th value the converter delivers
    on each pin.  [measurePhaseTimed] is the same function with its clock.

    Effects.  [setup], the whole of [loop] and [sendToServer] are functions
    to the list of what they do to the pins, the link and the server. *)

From Stdlib Require Import Reals Lra Lia ZArith List Bool.
From Stdlib Require Import QArith Qround String Ascii Sorted.
From Stdlib Require Import Floats.SpecFloat.
Import ListNotations.

Open Scope R_scope.

(** ** The Arduino core macros used by the sketch *)

Module Arduino.

(** Modelled from the spec: [constrain] is a macro of the Arduino core, not
    of the sketch (the spec calls it clamp).  The core defines it as
    [((amt)<(low)?(low):((amt)>(high)?(high):(amt)))]. *)
Definition constrain (amt low high : R) : R :=
  if Rlt_dec amt low then low
  else if Rgt_dec amt high then high
  else amt.

(** Modelled from the spec: [abs] belongs to the Arduino core (the spec
    writes |x|): the macro [((x)>0?(x):-(x))] of the classic core, [std::abs]
    on the ESP32 core, which are one function on reals ([abs_Rabs]). *)
Definition abs (x : R) : R :=
  if Rgt_dec x 0 then x else - x.

(** Modelled from the spec: [max] belongs to the Arduino core: the macro
    [((a)>(b)?(a):(b))] of the classic core, [std::max] on the ESP32 core,
    which are one function on reals ([max_Rmax]). *)
Definition max (a b : R) : R :=
  if Rgt_dec a b then a else b.

End Arduino.

(** Comparison of two reals as a C condition. *)
Definition Rgtb (x y : R) : bool := if Rgt_dec x y then true else false.
Definition Rltb (x y : R) : bool := if Rlt_dec x y then true else false.

(** ** Constants of the sketch *)

Definition NUM_PHASES : Z := 3.
Definition VOLTAGE_PINS : list Z := [34; 32; 25]%Z.
Definition CURRENT_PINS : list Z := [35; 33; 26]%Z.

Definition ADC_MAX : R := 4095.0.
Definition ADC_VREF : R := 3.3.

Definition VOLTAGE_CALIBRATION : R := 234.26.
Definition ACS712_SENSITIVITY : R := 0.066.
Definition ACS712_OFFSET : R := ADC_VREF / 2.0.

Definition SAMPLES_PER_CYCLE : Z := 200.
Definition NUM_CYCLES : Z := 5.

Definition PF_THRESHOLD : R := 0.85.

(** [int totalSamples = SAMPLES_PER_CYCLE * NUM_CYCLES;] *)
Definition totalSamples : Z := (SAMPLES_PER_CYCLE * NUM_CYCLES)%Z.

(** ** Data *)

(** [struct PhaseData] *)
Record PhaseData : Type := mkPhaseData {
  voltageRms : R;
  currentRms : R;
  powerFactor : R;
  realPower : R;
  apparentPower : R;
  reactivePower : R
}.

(** Assignments to the fields of [result]. *)
Definition set_voltageRms (x : R) (p : PhaseData) : PhaseData :=
  mkPhaseData x (currentRms p) (powerFactor p) (realPower p)
              (apparentPower p) (reactivePower p).
Definition set_currentRms (x : R) (p : PhaseData) : PhaseData :=
  mkPhaseData (voltageRms p) x (powerFactor p) (realPower p)
              (apparentPower p) (reactivePower p).
Definition set_powerFactor (x : R) (p : PhaseData) : PhaseData :=
  mkPhaseData (voltageRms p) (currentRms p) x (realPower p)
              (apparentPower p) (reactivePower p).
Definition set_realPower (x : R) (p : PhaseData) : PhaseData :=
  mkPhaseData (voltageRms p) (currentRms p) (powerFactor p) x
              (apparentPower p) (reactivePower p).
Definition set_apparentPower (x : R) (p : PhaseData) : PhaseData :=
  mkPhaseData (voltageRms p) (currentRms p) (powerFactor p) (realPower p)
              x (reactivePower p).
Definition set_reactivePower (x : R) (p : PhaseData) : PhaseData :=
  mkPhaseData (voltageRms p) (currentRms p) (powerFactor p) (realPower p)
              (apparentPower p) x.

(** [PhaseData result = {0, 0, 0, 0, 0, 0};] *)
Definition zeroPhase : PhaseData := mkPhaseData 0 0 0 0 0 0.

(** What the converter delivers: [analogRead pin k] is the value returned by
    the call [analogRead(pin)] in pass [k] of one sampling window. *)
Definition AnalogRead : Type := Z -> nat -> Z.

(** The local variables of [measurePhase] that live across the passes of the
    sampling loop. *)
Record Sums : Type := mkSums {
  sumVSq : R;
  sumISq : R;
  sumVI : R;
  prevV : R;
  prevI : R
}.

(** [float sumVSq = 0, sumISq = 0, sumVI = 0;  float prevV = 0, prevI = 0;] *)
Definition initSums : Sums := mkSums 0 0 0 0 0.

(** ** measurePhase *)

(** One pass of the sampling loop, after the busy wait. *)
Definition sampleStep (analogRead : AnalogRead) (voltagePin currentPin : Z)
    (s : Sums) (i : nat) : Sums :=
  let rawV := analogRead voltagePin i in
  let rawI := analogRead currentPin i in
  let adcV := (IZR rawV / ADC_MAX) * ADC_VREF in
  let adcI := (IZR rawI / ADC_MAX) * ADC_VREF in
  let v := adcV - (ADC_VREF / 2.0) in
  let current := (adcI - ACS712_OFFSET) / ACS712_SENSITIVITY in
  mkSums (sumVSq s + v * v)
         (sumISq s + current * current)
         (sumVI s + v * current)
         v
         current.

(** [for (int i = 0; i < totalSamples; i++) { ... }], run from [s] for the
    [n] passes that start at index [i]. *)
Fixpoint sampleLoop (analogRead : AnalogRead) (voltagePin currentPin : Z)
    (n : nat) (i : nat) (s : Sums) : Sums :=
  match n with
  | O => s
  | S n' =>
      sampleLoop analogRead voltagePin currentPin n' (S i)
                 (sampleStep analogRead voltagePin currentPin s i)
  end.

(** The part of [measurePhase] after the sampling loop, as a function of the
    three sums. *)
Definition deriveMetrics (sVSq sISq sVI : R) : PhaseData :=
  let result := zeroPhase in
  let result :=
    set_voltageRms (sqrt (sVSq / IZR totalSamples) * VOLTAGE_CALIBRATION)
                   result in
  let result := set_currentRms (sqrt (sISq / IZR totalSamples)) result in
  if Rgt_dec (currentRms result) 0.05 then
    let avgVI := sVI / IZR totalSamples in
    let result := set_realPower (avgVI * VOLTAGE_CALIBRATION) result in
    let result :=
      set_apparentPower (voltageRms result * currentRms result) result in
    let result :=
      if Rgt_dec (apparentPower result) 0 then
        let result :=
          set_powerFactor (realPower result / apparentPower result) result in
        let result :=
          set_powerFactor
            (Arduino.constrain (powerFactor result) (-1.0) 1.0) result in
        set_powerFactor (Arduino.abs (powerFactor result)) result
      else result in
    set_reactivePower
      (sqrt (Arduino.max 0.0
               (apparentPower result * apparentPower result
                - realPower result * realPower result)))
      result
  else result.

(** [PhaseData measurePhase(int voltagePin, int currentPin)] *)
Definition measurePhase (analogRead : AnalogRead) (voltagePin currentPin : Z)
    : PhaseData :=
  let s :=
    sampleLoop analogRead voltagePin currentPin
               (Z.to_nat totalSamples) 0 initSums in
  deriveMetrics (sumVSq s) (sumISq s) (sumVI s).

(** ** measurePhase without the retained previous sample

    The same function with the declaration [float prevV = 0, prevI = 0;] and
    the assignments [prevV = v; prevI = current;] deleted. *)

Record SumsNoPrev : Type := mkSumsNoPrev {
  npSumVSq : R;
  npSumISq : R;
  npSumVI : R
}.

Definition initSumsNoPrev : SumsNoPrev := mkSumsNoPrev 0 0 0.

Definition sampleStepNoPrev (analogRead : AnalogRead)
    (voltagePin currentPin : Z) (s : SumsNoPrev) (i : nat) : SumsNoPrev :=
  let rawV := analogRead voltagePin i in
  let rawI := analogRead currentPin i in
  let adcV := (IZR rawV / ADC_MAX) * ADC_VREF in
  let adcI := (IZR rawI / ADC_MAX) * ADC_VREF in
  let v := adcV - (ADC_VREF / 2.0) in
  let current := (adcI - ACS712_OFFSET) / ACS712_SENSITIVITY in
  mkSumsNoPrev (npSumVSq s + v * v)
               (npSumISq s + current * current)
               (npSumVI s + v * current).

Fixpoint sampleLoopNoPrev (analogRead : AnalogRead)
    (voltagePin currentPin : Z) (n : nat) (i : nat) (s : SumsNoPrev)
    : SumsNoPrev :=
  match n with
  | O => s
  | S n' =>
      sampleLoopNoPrev analogRead voltagePin currentPin n' (S i)
                       (sampleStepNoPrev analogRead voltagePin currentPin s i)
  end.

Definition measurePhaseNoPrev (analogRead : AnalogRead)
    (voltagePin currentPin : Z) : PhaseData :=
  let s :=
    sampleLoopNoPrev analogRead voltagePin currentPin
                     (Z.to_nat totalSamples) 0 initSumsNoPrev in
  deriveMetrics (npSumVSq s) (npSumISq s) (npSumVI s).

(** ** measurePhase with every division and square root checked

    The same statements, in the error monad of [option]: a division whose
    divisor is zero, or a square root of a negative number, ends the
    computation with [None]. *)

Definition bind {A B : Type} (m : option A) (k : A -> option B) : option B :=
  match m with
  | Some a => k a
  | None => None
  end.

Notation "x <- m ;; k" := (bind m (fun x => k))
  (at level 61, m at next level, right associativity).

Definition checkedDiv (x y : R) : option R :=
  if Req_dec_T y 0 then None else Some (x / y).

Definition checkedSqrt (x : R) : option R :=
  if Rlt_dec x 0 then None else Some (sqrt x).

(** [const float ACS712_OFFSET = ADC_VREF / 2.0;] *)
Definition ACS712_OFFSET_checked : option R := checkedDiv ADC_VREF 2.0.

Definition sampleStepChecked (analogRead : AnalogRead)
    (voltagePin currentPin : Z) (s : Sums) (i : nat) : option Sums :=
  let rawV := analogRead voltagePin i in
  let rawI := analogRead currentPin i in
  qV <- checkedDiv (IZR rawV) ADC_MAX ;;
  let adcV := qV * ADC_VREF in
  qI <- checkedDiv (IZR rawI) ADC_MAX ;;
  let adcI := qI * ADC_VREF in
  mid <- checkedDiv ADC_VREF 2.0 ;;
  let v := adcV - mid in
  offset <- ACS712_OFFSET_checked ;;
  current <- checkedDiv (adcI - offset) ACS712_SENSITIVITY ;;
  Some (mkSums (sumVSq s + v * v)
               (sumISq s + current * current)
               (sumVI s + v * current)
               v
               current).

Fixpoint sampleLoopChecked (analogRead : AnalogRead)
    (voltagePin currentPin : Z) (n : nat) (i : nat) (s : Sums)
    : option Sums :=
  match n with
  | O => Some s
  | S n' =>
      s' <- sampleStepChecked analogRead voltagePin currentPin s i ;;
      sampleLoopChecked analogRead voltagePin currentPin n' (S i) s'
  end.

Definition deriveMetricsChecked (sVSq sISq sVI : R) : option PhaseData :=
  let result := zeroPhase in
  meanVSq <- checkedDiv sVSq (IZR totalSamples) ;;
  rootV <- checkedSqrt meanVSq ;;
  let result := set_voltageRms (rootV * VOLTAGE_CALIBRATION) result in
  meanISq <- checkedDiv sISq (IZR totalSamples) ;;
  rootI <- checkedSqrt meanISq ;;
  let result := set_currentRms rootI result in
  if Rgt_dec (currentRms result) 0.05 then
    avgVI <- checkedDiv sVI (IZR totalSamples) ;;
    let result := set_realPower (avgVI * VOLTAGE_CALIBRATION) result in
    let result :=
      set_apparentPower (voltageRms result * currentRms result) result in
    result <-
      (if Rgt_dec (apparentPower result) 0 then
         pf <- checkedDiv (realPower result) (apparentPower result) ;;
         let result := set_powerFactor pf result in
         let result :=
           set_powerFactor
             (Arduino.constrain (powerFactor result) (-1.0) 1.0) result in
         Some (set_powerFactor (Arduino.abs (powerFactor result)) result)
       else Some result) ;;
    rootQ <-
      checkedSqrt (Arduino.max 0.0
                     (apparentPower result * apparentPower result
                      - realPower result * realPower result)) ;;
    Some (set_reactivePower rootQ result)
  else Some result.

Definition measurePhaseChecked (analogRead : AnalogRead)
    (voltagePin currentPin : Z) : option PhaseData :=
  s <- sampleLoopChecked analogRead voltagePin currentPin
                         (Z.to_nat totalSamples) 0 initSums ;;
  deriveMetricsChecked (sumVSq s) (sumISq s) (sumVI s).

(** ** loop: aggregation over the phases and the alert

    The model is one pass of [loop] in which the WiFi link is up and the send
    interval has elapsed, up to the call of [sendToServer]. *)

(** The locals of [loop] updated in the loop over the phases. *)
Record Totals : Type := mkTotals {
  totalRealPower : R;
  totalApparentPower : R;
  anyLowPF : bool
}.

(** [float totalRealPower = 0, totalApparentPower = 0; bool anyLowPF = false;] *)
Definition initTotals : Totals := mkTotals 0 0 false.

(** The body of the loop over the phases, for the phase result [p].  The
    threshold is [PF_THRESHOLD] in the sketch; it is a parameter here so that
    the alert can be stated for any configured threshold. *)
Definition phaseStep (threshold : R) (t : Totals) (p : PhaseData) : Totals :=
  mkTotals (totalRealPower t + realPower p)
           (totalApparentPower t + apparentPower p)
           (if Rgtb (powerFactor p) 0.01 && Rltb (powerFactor p) threshold
            then true else anyLowPF t).

(** What one pass of [loop] hands to [sendToServer], under the names of its
    parameters, and whether the LED alert is given. *)
Record Snapshot : Type := mkSnapshot {
  phases : list PhaseData;
  overallPF : R;
  totalReal : R;
  totalApparent : R;
  totalReactive : R;
  alertRaised : bool
}.

(** The part of [loop] from the loop over the phases to the call of
    [sendToServer], as a function of the phase results. *)
Definition aggregate (threshold : R) (ps : list PhaseData) : Snapshot :=
  let t := fold_left (phaseStep threshold) ps initTotals in
  let overallPF := 0 in
  let totalReactivePower := 0 in
  if Rgt_dec (totalApparentPower t) 0 then
    let overallPF := totalRealPower t / totalApparentPower t in
    let overallPF := Arduino.constrain (Arduino.abs overallPF) 0.0 1.0 in
    let totalReactivePower :=
      sqrt (Arduino.max 0.0
              (totalApparentPower t * totalApparentPower t
               - totalRealPower t * totalRealPower t)) in
    mkSnapshot ps overallPF (totalRealPower t) (totalApparentPower t)
               totalReactivePower (anyLowPF t)
  else
    mkSnapshot ps overallPF (totalRealPower t) (totalApparentPower t)
               totalReactivePower (anyLowPF t).

(** [phases[i] = measurePhase(VOLTAGE_PINS[i], CURRENT_PINS[i])] for
    [i = 0 .. NUM_PHASES - 1]; [reads i] is what the converter delivers
    during the window of phase [i]. *)
Definition measureAll (reads : nat -> AnalogRead) : list PhaseData :=
  map (fun i => measurePhase (reads i) (nth i VOLTAGE_PINS 0%Z)
                             (nth i CURRENT_PINS 0%Z))
      (seq 0 (Z.to_nat NUM_PHASES)).

Definition loop (reads : nat -> AnalogRead) : Snapshot :=
  aggregate PF_THRESHOLD (measureAll reads).

(** ** The vocabulary of the specification *)

(** Instantaneous voltage and current of a raw code pair. *)
Definition voltsOf (rawV : Z) : R :=
  (IZR rawV / ADC_MAX) * ADC_VREF - ADC_VREF / 2.

Definition ampsOf (rawI : Z) : R :=
  ((IZR rawI / ADC_MAX) * ADC_VREF - ACS712_OFFSET) / ACS712_SENSITIVITY.

(** The noise floor of the current channel. *)
Definition NOISE_FLOOR : R := 0.05.

(** The epsilon under which a power factor counts as the no-load dead-band. *)
Definition PF_EPSILON : R := 0.01.

(** [f 0 + ... + f (n - 1)] *)
Fixpoint sumFirst (n : nat) (f : nat -> R) : R :=
  match n with
  | O => 0
  | S n' => sumFirst n' f + f n'
  end.

(** Mean of [f] over the sampling window. *)
Definition mean (f : nat -> R) : R :=
  sumFirst (Z.to_nat totalSamples) f / IZR totalSamples.

(** [clamp(x, lo, hi)] *)
Definition clamp (x lo hi : R) : R := Rmax lo (Rmin x hi).

(** A phase qualifies for the alert. *)
Definition lowPF (threshold : R) (p : PhaseData) : Prop :=
  PF_EPSILON < powerFactor p /\ powerFactor p < threshold.

(** The four derived power fields are all zero. *)
Definition powerFieldsZero (p : PhaseData) : Prop :=
  realPower p = 0 /\ apparentPower p = 0 /\ reactivePower p = 0
  /\ powerFactor p = 0.

(** A converter that delivers the same code pair in every pass. *)
Definition constantRead (rawV rawI : Z) (voltagePin : Z) : AnalogRead :=
  fun pin _ => if Z.eqb pin voltagePin then rawV else rawI.

(** A converter that delivers, on both pins, [hi] in the even passes and
    [lo] in the odd ones. *)
Definition alternatingRead (hi lo : Z) : AnalogRead :=
  fun _ k => if Nat.even k then hi else lo.

(** A converter whose three phases have an idle current channel. *)
Definition idleReads (i : nat) : AnalogRead :=
  constantRead 4095 2048 (nth i VOLTAGE_PINS 0%Z).

(** ** Time: the microsecond schedule of the sampling loop

    [unsigned long] is 32 bits wide on the ESP32; [micros()] and [millis()]
    count modulo [2^32].  The [float] quantities of the schedule are exact
    rationals here, so that the schedule can be computed. *)

Definition ULONG_MODULUS : Z := 2 ^ 32.

(** Reduction to [unsigned long]. *)
Definition ulong (z : Z) : Z := z mod ULONG_MODULUS.

Definition AC_FREQUENCY : Q := 50.

(** [const float CYCLE_PERIOD_US = (1.0 / AC_FREQUENCY) * 1000000.0;] *)
Definition CYCLE_PERIOD_US : Q := ((1 / AC_FREQUENCY) * 1000000)%Q.

(** [float sampleInterval = (CYCLE_PERIOD_US * NUM_CYCLES) / totalSamples;] *)
Definition sampleInterval : Q :=
  ((CYCLE_PERIOD_US * inject_Z NUM_CYCLES) / inject_Z totalSamples)%Q.

(** [unsigned long targetTime =
       sampleStartTime + (unsigned long)(i * sampleInterval);] *)
Definition targetTime (sampleStartTime : Z) (i : nat) : Z :=
  ulong (sampleStartTime
         + ulong (Qfloor (inject_Z (Z.of_nat i) * sampleInterval)%Q))%Z.

(** The clock: [micros k] is the value returned by the call of [micros()]
    number [k] (from 0) inside one run of [measurePhase]. *)
Definition Micros : Type := nat -> Z.

(** [while (micros() < targetTime) { }], entered when [calls] calls of
    [micros()] have been made; the result is the number of calls made when
    the wait is over.  [fuel] bounds the number of polls. *)
Fixpoint busyWait (micros : Micros) (fuel : nat) (calls : nat)
    (targetTime : Z) : option nat :=
  match fuel with
  | O => None
  | S fuel' =>
      if (micros calls <? targetTime)%Z
      then busyWait micros fuel' (S calls) targetTime
      else Some (S calls)
  end.

(** The sampling loop with its busy wait.  Beside the sums it returns, for
    every pass, the clock reading that ended the wait of that pass. *)
Fixpoint timedLoop (micros : Micros) (fuel : nat) (analogRead : AnalogRead)
    (voltagePin currentPin : Z) (sampleStartTime : Z) (n i calls : nat)
    (s : Sums) : option (Sums * list Z) :=
  match n with
  | O => Some (s, [])
  | S n' =>
      match busyWait micros fuel calls (targetTime sampleStartTime i) with
      | None => None
      | Some calls' =>
          match timedLoop micros fuel analogRead voltagePin currentPin
                          sampleStartTime n' (S i) calls'
                          (sampleStep analogRead voltagePin currentPin s i)
          with
          | None => None
          | Some (s', released) => Some (s', micros (pred calls') :: released)
          end
      end
  end.

(** [measurePhase] with its clock: [unsigned long sampleStartTime = micros();]
    is call 0. *)
Definition measurePhaseTimed (micros : Micros) (fuel : nat)
    (analogRead : AnalogRead) (voltagePin currentPin : Z)
    : option (PhaseData * list Z) :=
  let sampleStartTime := micros 0%nat in
  match timedLoop micros fuel analogRead voltagePin currentPin
                  sampleStartTime (Z.to_nat totalSamples) 0 1 initSums with
  | None => None
  | Some (s, released) =>
      Some (deriveMetrics (sumVSq s) (sumISq s) (sumVI s), released)
  end.

(** ** Effects: setup, and the whole of loop

    What the sketch does to the outside is a list of events, oldest first.
    Text written to [Serial] and the configuration of the converter
    ([analogReadResolution], [analogSetAttenuation]) are not part of it. *)

Definition LED_PIN : Z := 2.
Definition SEND_INTERVAL : Z := 2000.

Definition SERVER_URL : string := "http://192.168.1.100:5000/api/data".

Inductive Event : Type :=
| PinMode (pin : Z) (output : bool)
| DigitalWrite (pin : Z) (high : bool)
| Delay (ms : Z)
| WiFiBegin
| HttpPost (url body : string).

(** [for (int j = 0; j < n; j++) { digitalWrite(LED_PIN, HIGH); delay(ms);
    digitalWrite(LED_PIN, LOW); delay(ms); }] *)
Fixpoint flashLed (n : nat) (ms : Z) : list Event :=
  match n with
  | O => []
  | S n' =>
      [DigitalWrite LED_PIN true; Delay ms; DigitalWrite LED_PIN false;
       Delay ms] ++ flashLed n' ms
  end.

(** [while (WiFi.status() != WL_CONNECTED && attempts < 30)
      { delay(500); attempts++; }]
    [connected k] tells whether call number [k] of [WiFi.status()] returns
    [WL_CONNECTED]; the loop makes one call per test, so the test with
    [attempts] attempts behind it is call number [attempts].  [remaining] is
    [30 - attempts]. *)
Fixpoint waitForWiFi (connected : nat -> bool) (remaining attempts : nat)
    : nat * list Event :=
  if connected attempts then (attempts, [])
  else
    match remaining with
    | O => (attempts, [])
    | S remaining' =>
        let (final, events) :=
          waitForWiFi connected remaining' (S attempts) in
        (final, Delay 500 :: events)
    end.

(** [void setup()] *)
Definition setup (connected : nat -> bool) : list Event :=
  [PinMode LED_PIN true; DigitalWrite LED_PIN false]
  ++ flat_map (fun i => [PinMode (nth i VOLTAGE_PINS 0%Z) false;
                         PinMode (nth i CURRENT_PINS 0%Z) false])
              (seq 0 (Z.to_nat NUM_PHASES))
  ++ [WiFiBegin]
  ++ (let (attempts, events) := waitForWiFi connected 30 0 in
      events
      ++ (if connected (S attempts) then flashLed 3 150 else [])).

Definition dq : string := String (Ascii.ascii_of_nat 34) EmptyString.

Section Payload.

(** Modelled from the spec: [String(value, decimalPlaces)] is the constructor
    of the Arduino [String] class, which is not part of the sketch; it
    renders [value] with [decimalPlaces] decimal places. *)
Variable formatFloat : R -> nat -> string.

(** The [json] string of [sendToServer], statement by statement: every
    [let] is one [json += ...] of the source. *)
Definition payload (phases : list PhaseData)
    (overallPF totalReal totalApparent totalReactive : R) : string :=
  let json := "{"%string in
  let json := (json ++ (dq ++ "phase_r" ++ dq ++ ":{"))%string in
  let json := (json ++ (dq ++ "voltage" ++ dq ++ ":"
                     ++ formatFloat (voltageRms (nth 0 phases zeroPhase)) 2
                     ++ ","))%string in
  let json := (json ++ (dq ++ "current" ++ dq ++ ":"
                     ++ formatFloat (currentRms (nth 0 phases zeroPhase)) 3
                     ++ ","))%string in
  let json := (json ++ (dq ++ "power_factor" ++ dq ++ ":"
                     ++ formatFloat (powerFactor (nth 0 phases zeroPhase)) 3
                     ++ ","))%string in
  let json := (json ++ (dq ++ "real_power" ++ dq ++ ":"
                     ++ formatFloat (realPower (nth 0 phases zeroPhase)) 2
                     ++ ","))%string in
  let json := (json ++ (dq ++ "apparent_power" ++ dq ++ ":"
                     ++ formatFloat (apparentPower (nth 0 phases zeroPhase)) 2
                     ++ ","))%string in
  let json := (json ++ (dq ++ "reactive_power" ++ dq ++ ":"
                     ++ formatFloat (reactivePower (nth 0 phases zeroPhase)) 2
                     ))%string in
  let json := (json ++ "},")%string in
  let json := (json ++ (dq ++ "phase_y" ++ dq ++ ":{"))%string in
  let json := (json ++ (dq ++ "voltage" ++ dq ++ ":"
                     ++ formatFloat (voltageRms (nth 1 phases zeroPhase)) 2
                     ++ ","))%string in
  let json := (json ++ (dq ++ "current" ++ dq ++ ":"
                     ++ formatFloat (currentRms (nth 1 phases zeroPhase)) 3
                     ++ ","))%string in
  let json := (json ++ (dq ++ "power_factor" ++ dq ++ ":"
                     ++ formatFloat (powerFactor (nth 1 phases zeroPhase)) 3
                     ++ ","))%string in
  let json := (json ++ (dq ++ "real_power" ++ dq ++ ":"
                     ++ formatFloat (realPower (nth 1 phases zeroPhase)) 2
                     ++ ","))%string in
  let json := (json ++ (dq ++ "apparent_power" ++ dq ++ ":"
                     ++ formatFloat (apparentPower (nth 1 phases zeroPhase)) 2
                     ++ ","))%string in
  let json := (json ++ (dq ++ "reactive_power" ++ dq ++ ":"
                     ++ formatFloat (reactivePower (nth 1 phases zeroPhase)) 2
                     ))%string in
  let json := (json ++ "},")%string in
  let json := (json ++ (dq ++ "phase_b" ++ dq ++ ":{"))%string in
  let json := (json ++ (dq ++ "voltage" ++ dq ++ ":"
                     ++ formatFloat (voltageRms (nth 2 phases zeroPhase)) 2
                     ++ ","))%string in
  let json := (json ++ (dq ++ "current" ++ dq ++ ":"
                     ++ formatFloat (currentRms (nth 2 phases zeroPhase)) 3
                     ++ ","))%string in
  let json := (json ++ (dq ++ "power_factor" ++ dq ++ ":"
                     ++ formatFloat (powerFactor (nth 2 phases zeroPhase)) 3
                     ++ ","))%string in
  let json := (json ++ (dq ++ "real_power" ++ dq ++ ":"
                     ++ formatFloat (realPower (nth 2 phases zeroPhase)) 2
                     ++ ","))%string in
  let json := (json ++ (dq ++ "apparent_power" ++ dq ++ ":"
                     ++ formatFloat (apparentPower (nth 2 phases zeroPhase)) 2
                     ++ ","))%string in
  let json := (json ++ (dq ++ "reactive_power" ++ dq ++ ":"
                     ++ formatFloat (reactivePower (nth 2 phases zeroPhase)) 2
                     ))%string in
  let json := (json ++ "},")%string in
  let json := (json ++ (dq ++ "overall_pf" ++ dq ++ ":"
                     ++ formatFloat overallPF 3
                     ++ ","))%string in
  let json := (json ++ (dq ++ "total_real_power" ++ dq ++ ":"
                     ++ formatFloat totalReal 2
                     ++ ","))%string in
  let json := (json ++ (dq ++ "total_apparent_power" ++ dq ++ ":"
                     ++ formatFloat totalApparent 2
                     ++ ","))%string in
  let json := (json ++ (dq ++ "total_reactive_power" ++ dq ++ ":"
                     ++ formatFloat totalReactive 2))%string in
  let json := (json ++ "}")%string in
  json.

(** [void sendToServer(PhaseData phases[], float overallPF, float totalReal,
    float totalApparent, float totalReactive)]; the status returned by
    [http.POST] only selects the text written to [Serial]. *)
Definition sendToServer (phases : list PhaseData)
    (overallPF totalReal totalApparent totalReactive : R) : list Event :=
  [HttpPost SERVER_URL
            (payload phases overallPF totalReal totalApparent totalReactive)].

(** What one call of [loop] meets: the answer of [WiFi.status()], the value
    of [millis()], and what the converter delivers in the three windows. *)
Record PassInput : Type := mkPassInput {
  wifiConnected : bool;
  millisNow : Z;
  passReads : nat -> AnalogRead
}.

(** [void loop()], from the global [lastSendTime] to its new value and the
    events of the pass. *)
Definition loopPass (lastSendTime : Z) (inp : PassInput) : Z * list Event :=
  if negb (wifiConnected inp) then
    (lastSendTime, [WiFiBegin; Delay 5000])
  else
    let now := millisNow inp in
    if (ulong (now - lastSendTime) <? SEND_INTERVAL)%Z then
      (lastSendTime, [])
    else
      let lastSendTime := now in
      let s := loop (passReads inp) in
      (lastSendTime,
       (if alertRaised s then flashLed 3 100 else [])
       ++ sendToServer (phases s) (overallPF s) (totalReal s)
                       (totalApparent s) (totalReactive s)).

(** The sketch run: [setup] once, then [loop] for every input in turn. *)
Fixpoint loopPasses (lastSendTime : Z) (inputs : list PassInput)
    : Z * list Event :=
  match inputs with
  | [] => (lastSendTime, [])
  | inp :: rest =>
      let (t, events) := loopPass lastSendTime inp in
      let (t', events') := loopPasses t rest in
      (t', events ++ events')
  end.

Definition run (connected : nat -> bool) (inputs : list PassInput)
    : list Event :=
  setup connected ++ snd (loopPasses 0 inputs).

End Payload.

(** ** Reading a trace *)

(** The level of the LED after a trace, from its level before. *)
Definition ledAfter (before : bool) (trace : list Event) : bool :=
  fold_left (fun level e =>
               match e with
               | DigitalWrite pin high =>
                   if Z.eqb pin LED_PIN then high else level
               | _ => level
               end) trace before.

(** The bodies posted, oldest first. *)
Definition posts (trace : list Event) : list string :=
  flat_map (fun e => match e with HttpPost _ body => [body] | _ => [] end)
           trace.

(** The milliseconds spent in [delay]. *)
Definition totalDelay (trace : list Event) : Z :=
  fold_right (fun e acc => match e with Delay ms => (ms + acc)%Z | _ => acc end)
             0%Z trace.

(** A document of the shape the server reads: an object whose members are
    numbers, given by their text, or objects of numbers. *)
Inductive Member : Type :=
| Number (key text : string)
| Object (key : string) (fields : list (string * string)).

Definition renderField (field : string * string) : string :=
  (dq ++ fst field ++ dq ++ ":" ++ snd field)%string.

Definition renderMember (m : Member) : string :=
  match m with
  | Number key text => renderField (key, text)
  | Object key fields =>
      (dq ++ key ++ dq ++ ":{"
       ++ String.concat "," (map renderField fields) ++ "}")%string
  end.

Definition renderDocument (members : list Member) : string :=
  ("{" ++ String.concat "," (map renderMember members) ++ "}")%string.

(** The six numbers of a phase as the server reads them. *)
Definition phaseFields (formatFloat : R -> nat -> string) (p : PhaseData)
    : list (string * string) :=
  [("voltage", formatFloat (voltageRms p) 2%nat);
   ("current", formatFloat (currentRms p) 3%nat);
   ("power_factor", formatFloat (powerFactor p) 3%nat);
   ("real_power", formatFloat (realPower p) 2%nat);
   ("apparent_power", formatFloat (apparentPower p) 2%nat);
   ("reactive_power", formatFloat (reactivePower p) 2%nat)]%string.

(** The passes of a run that post, by the time at which they start: every
    pass comes with the time, in milliseconds since the start of the sketch
    and not reduced modulo [2^32], at which it reads [millis()]. *)
Fixpoint sendTimes (formatFloat : R -> nat -> string) (lastSendTime : Z)
    (passes : list (Z * PassInput)) : list Z :=
  match passes with
  | [] => []
  | (time, inp) :: rest =>
      let (lastSendTime', events) := loopPass formatFloat lastSendTime inp in
      match posts events with
      | [] => sendTimes formatFloat lastSendTime' rest
      | _ :: _ => time :: sendTimes formatFloat lastSendTime' rest
      end
  end.

(** A pass with the link up whose three current channels are idle. *)
Definition idlePass (now : Z) : PassInput := mkPassInput true now idleReads.

(** A formatter for examples: every number is rendered as the digit 0. *)
Definition formatZero : R -> nat -> string := fun _ _ => "0"%string.

(** ** A sampled mains sinusoid

    What a 12-bit converter delivers for a given waveform: the code nearest
    to each value. *)

(** The integer nearest to [x] (the lower one at a tie). *)
Definition nearestCode (x : R) : Z := (up (x - / 2) - 1 + 1)%Z.

(** The code read for [v] volts, zero-centred, at the voltage pin of the
    converter: the inverse of [voltsOf], rounded. *)
Definition codeOfVolts (v : R) : Z :=
  nearestCode ((v + ADC_VREF / 2) / ADC_VREF * ADC_MAX).

(** The code read for a current of [i] amperes: the inverse of [ampsOf],
    rounded. *)
Definition codeOfAmps (i : R) : Z :=
  nearestCode ((i * ACS712_SENSITIVITY + ACS712_OFFSET) / ADC_VREF * ADC_MAX).

(** The sinusoid of one cycle per [SAMPLES_PER_CYCLE] passes. *)
Definition mainsWave (k : nat) : R :=
  sin (2 * PI * INR k / IZR SAMPLES_PER_CYCLE).

(** A converter that delivers an in-phase mains sinusoid: [amplitudeV] volts
    at the voltage pin, [amplitudeI] amperes on every other pin. *)
Definition mainsRead (amplitudeV amplitudeI : R) (voltagePin : Z)
    : AnalogRead :=
  fun pin k =>
    if Z.eqb pin voltagePin then codeOfVolts (amplitudeV * mainsWave k)
    else codeOfAmps (amplitudeI * mainsWave k).

(** Half a code, in volts at the pin and in amperes. *)
Definition HALF_CODE_VOLTS : R := ADC_VREF / ADC_MAX / 2.
Definition HALF_CODE_AMPS : R := ADC_VREF / ADC_MAX / 2 / ACS712_SENSITIVITY.

(** ** The same arithmetic with its rounding

    A second embedding of [measurePhase] and of the aggregation of [loop], in
    which a C [float] is an IEEE 754 binary32 number and a [double] a
    binary64 number ([spec_float], rounding to nearest even), a literal with
    a decimal point is a [double] and every conversion that C makes between
    the two is written out.  It computes; it serves to show what rounding
    does at a given input.  [sqrt] at a [float] is the [float] square root
    (the overload that C++ selects), and no multiplication is fused with an
    addition. *)

Module Binary32.

Definition float : Type := spec_float.
Definition double : Type := spec_float.

(** Conversions: from [int], and between [float] and [double]. *)
Definition floatOfInt (z : Z) : float := binary_normalize 24 128 z 0 false.
Definition doubleOfInt (z : Z) : double := binary_normalize 53 1024 z 0 false.

Definition toFloat (x : double) : float :=
  match x with
  | S754_finite s m e => binary_normalize 24 128 (cond_Zopp s (Zpos m)) e s
  | _ => x
  end.

Definition toDouble (x : float) : double :=
  match x with
  | S754_finite s m e => binary_normalize 53 1024 (cond_Zopp s (Zpos m)) e s
  | _ => x
  end.

Definition fadd : float -> float -> float := SFadd 24 128.
Definition fsub : float -> float -> float := SFsub 24 128.
Definition fmul : float -> float -> float := SFmul 24 128.
Definition fdiv : float -> float -> float := SFdiv 24 128.
Definition fsqrt : float -> float := SFsqrt 24 128.
Definition dsub : double -> double -> double := SFsub 53 1024.
Definition dmul : double -> double -> double := SFmul 53 1024.
Definition ddiv : double -> double -> double := SFdiv 53 1024.

(** [x > y] and [x < y]; the same on [float] and on [double]. *)
Definition gt (x y : spec_float) : bool := SFltb y x.
Definition lt (x y : spec_float) : bool := SFltb x y.

(** The [double] nearest to the decimal literal [num / den]. *)
Definition literal (num den : Z) : double :=
  ddiv (doubleOfInt num) (doubleOfInt den).

Definition constrain (amt low high : spec_float) : spec_float :=
  if lt amt low then low else if gt amt high then high else amt.

Definition abs (x : spec_float) : spec_float :=
  if gt x (floatOfInt 0) then x else SFopp x.

Definition max (a b : spec_float) : spec_float := if gt a b then a else b.

Definition ADC_MAX : double := literal 4095 1.
Definition ADC_VREF : double := literal 33 10.
Definition VOLTAGE_CALIBRATION : float := toFloat (literal 23426 100).
Definition ACS712_SENSITIVITY : float := toFloat (literal 66 1000).
Definition ACS712_OFFSET : float := toFloat (ddiv ADC_VREF (literal 2 1)).
Definition PF_THRESHOLD : float := toFloat (literal 85 100).

Record PhaseData : Type := mkPhaseData {
  voltageRms : float;
  currentRms : float;
  powerFactor : float;
  realPower : float;
  apparentPower : float;
  reactivePower : float
}.

Record Sums : Type := mkSums {
  sumVSq : float;
  sumISq : float;
  sumVI : float
}.

Definition sampleStep (analogRead : AnalogRead) (voltagePin currentPin : Z)
    (s : Sums) (i : nat) : Sums :=
  let rawV := analogRead voltagePin i in
  let rawI := analogRead currentPin i in
  let adcV := toFloat (dmul (ddiv (doubleOfInt rawV) ADC_MAX) ADC_VREF) in
  let adcI := toFloat (dmul (ddiv (doubleOfInt rawI) ADC_MAX) ADC_VREF) in
  let v := toFloat (dsub (toDouble adcV) (ddiv ADC_VREF (literal 2 1))) in
  let current := fdiv (fsub adcI ACS712_OFFSET) ACS712_SENSITIVITY in
  mkSums (fadd (sumVSq s) (fmul v v))
         (fadd (sumISq s) (fmul current current))
         (fadd (sumVI s) (fmul v current)).

Fixpoint sampleLoop (analogRead : AnalogRead) (voltagePin currentPin : Z)
    (n : nat) (i : nat) (s : Sums) : Sums :=
  match n with
  | O => s
  | S n' =>
      sampleLoop analogRead voltagePin currentPin n' (S i)
                 (sampleStep analogRead voltagePin currentPin s i)
  end.

Definition measurePhase (analogRead : AnalogRead) (voltagePin currentPin : Z)
    : PhaseData :=
  let zero := floatOfInt 0 in
  let s :=
    sampleLoop analogRead voltagePin currentPin (Z.to_nat totalSamples) 0
               (mkSums zero zero zero) in
  let samples := floatOfInt totalSamples in
  let voltageRms :=
    fmul (fsqrt (fdiv (sumVSq s) samples)) VOLTAGE_CALIBRATION in
  let currentRms := fsqrt (fdiv (sumISq s) samples) in
  if gt (toDouble currentRms) (literal 5 100) then
    let avgVI := fdiv (sumVI s) samples in
    let realPower := fmul avgVI VOLTAGE_CALIBRATION in
    let apparentPower := fmul voltageRms currentRms in
    let powerFactor :=
      if gt apparentPower zero then
        let powerFactor := fdiv realPower apparentPower in
        let powerFactor :=
          toFloat (constrain (toDouble powerFactor)
                             (literal (-1) 1) (literal 1 1)) in
        abs powerFactor
      else zero in
    let reactivePower :=
      fsqrt (max zero (fsub (fmul apparentPower apparentPower)
                            (fmul realPower realPower))) in
    mkPhaseData voltageRms currentRms powerFactor realPower apparentPower
                reactivePower
  else mkPhaseData voltageRms currentRms zero zero zero zero.

(** The overall power factor of [loop] for the phase results [ps]. *)
Definition overallPF (ps : list PhaseData) : float :=
  let zero := floatOfInt 0 in
  let totalRealPower :=
    fold_left (fun t p => fadd t (realPower p)) ps zero in
  let totalApparentPower :=
    fold_left (fun t p => fadd t (apparentPower p)) ps zero in
  if gt totalApparentPower zero then
    let overallPF := fdiv totalRealPower totalApparentPower in
    constrain (abs overallPF) zero (floatOfInt 1)
  else zero.

End Binary32.


(** * Properties *)

(** ** The constants *)

Lemma totalSamples_value : IZR totalSamples = 1000.
Proof. unfold totalSamples, SAMPLES_PER_CYCLE, NUM_CYCLES. simpl. lra. Qed.

Lemma totalSamples_pos : 0 < IZR totalSamples.
Proof. rewrite totalSamples_value. lra. Qed.

Lemma totalSamples_INR : INR (Z.to_nat totalSamples) = IZR totalSamples.
Proof.
  rewrite INR_IZR_INZ, Z2Nat.id; [reflexivity|].
  unfold totalSamples, SAMPLES_PER_CYCLE, NUM_CYCLES. lia.
Qed.

Lemma calibration_pos : 0 < VOLTAGE_CALIBRATION.
Proof. unfold VOLTAGE_CALIBRATION. lra. Qed.

(** ** The core macros against the standard functions on reals *)

Lemma abs_Rabs (x : R) : Arduino.abs x = Rabs x.
Proof.
  unfold Arduino.abs, Rabs.
  destruct (Rgt_dec x 0), (Rcase_abs x); lra.
Qed.

Lemma max_Rmax (a b : R) : Arduino.max a b = Rmax a b.
Proof.
  unfold Arduino.max, Rmax.
  destruct (Rgt_dec a b), (Rle_dec a b); lra.
Qed.

Lemma constrain_clamp (x lo hi : R) :
  lo <= hi -> Arduino.constrain x lo hi = clamp x lo hi.
Proof.
  intros Hle. unfold Arduino.constrain, clamp, Rmax, Rmin.
  destruct (Rlt_dec x lo), (Rgt_dec x hi), (Rle_dec x hi);
    try lra; destruct (Rle_dec lo x); try lra; destruct (Rle_dec lo hi); lra.
Qed.

Lemma constrain_bounds (x lo hi : R) :
  lo <= hi -> lo <= Arduino.constrain x lo hi <= hi.
Proof.
  intros Hle. unfold Arduino.constrain.
  destruct (Rlt_dec x lo), (Rgt_dec x hi); lra.
Qed.

Lemma abs_constrain_unit (x : R) :
  Arduino.abs (Arduino.constrain x (-1.0) 1.0)
  = Arduino.constrain (Arduino.abs x) 0.0 1.0.
Proof.
  unfold Arduino.abs, Arduino.constrain.
  repeat match goal with
         | |- context [Rgt_dec ?a ?b] => destruct (Rgt_dec a b)
         | |- context [Rlt_dec ?a ?b] => destruct (Rlt_dec a b)
         end; lra.
Qed.

Lemma abs_constrain_range (x : R) :
  0 <= Arduino.abs (Arduino.constrain x (-1.0) 1.0) <= 1.
Proof.
  unfold Arduino.abs, Arduino.constrain.
  repeat match goal with
         | |- context [Rgt_dec ?a ?b] => destruct (Rgt_dec a b)
         | |- context [Rlt_dec ?a ?b] => destruct (Rlt_dec a b)
         end; lra.
Qed.

Lemma sqrt_max_nonneg_arg (x : R) : 0 <= Arduino.max 0.0 x.
Proof. unfold Arduino.max. destruct (Rgt_dec 0.0 x); lra. Qed.

(** ** Sums over the window *)

Lemma sumFirst_shift (n : nat) (f : nat -> R) :
  sumFirst (S n) f = f O + sumFirst n (fun k => f (S k)).
Proof.
  induction n as [|n IH].
  - simpl. lra.
  - change (sumFirst (S (S n)) f) with (sumFirst (S n) f + f (S n)).
    rewrite IH. simpl. lra.
Qed.

Lemma sumFirst_ext (n : nat) (f g : nat -> R) :
  (forall k, (k < n)%nat -> f k = g k) -> sumFirst n f = sumFirst n g.
Proof.
  induction n as [|n IH]; intros Hfg; simpl.
  - reflexivity.
  - rewrite IH, Hfg by (intros; try apply Hfg; lia). reflexivity.
Qed.

Lemma sumFirst_scale (n : nat) (c : R) (f : nat -> R) :
  sumFirst n (fun k => c * f k) = c * sumFirst n f.
Proof. induction n as [|n IH]; simpl; [|rewrite IH]; lra. Qed.

Lemma sumFirst_const (n : nat) (c : R) :
  sumFirst n (fun _ => c) = INR n * c.
Proof.
  induction n as [|n IH].
  - simpl. lra.
  - rewrite S_INR. simpl. rewrite IH. lra.
Qed.

Lemma sumFirst_nonneg (n : nat) (f : nat -> R) :
  (forall k, (k < n)%nat -> 0 <= f k) -> 0 <= sumFirst n f.
Proof.
  induction n as [|n IH]; intros Hf; simpl.
  - lra.
  - assert (0 <= sumFirst n f) by (apply IH; intros; apply Hf; lia).
    assert (0 <= f n) by (apply Hf; lia). lra.
Qed.

Lemma sumFirst_squares_nonneg (n : nat) (f : nat -> R) :
  0 <= sumFirst n (fun k => f k * f k).
Proof. apply sumFirst_nonneg. intros k _. nra. Qed.

(** ** The sampling loop computes the three window sums *)

Section SamplingLoop.

Variable analogRead : AnalogRead.
Variables voltagePin currentPin : Z.

Let v (k : nat) : R := voltsOf (analogRead voltagePin k).
Let c (k : nat) : R := ampsOf (analogRead currentPin k).

Lemma sampleStep_sums (s : Sums) (i : nat) :
  let s' := sampleStep analogRead voltagePin currentPin s i in
  sumVSq s' = sumVSq s + v i * v i
  /\ sumISq s' = sumISq s + c i * c i
  /\ sumVI s' = sumVI s + v i * c i.
Proof.
  unfold sampleStep, v, c, voltsOf, ampsOf. simpl.
  repeat split; f_equal; lra.
Qed.

Lemma sampleLoop_sums (n i : nat) (s : Sums) :
  let s' := sampleLoop analogRead voltagePin currentPin n i s in
  sumVSq s' = sumVSq s + sumFirst n (fun k => v (i + k)%nat * v (i + k)%nat)
  /\ sumISq s' = sumISq s + sumFirst n (fun k => c (i + k)%nat * c (i + k)%nat)
  /\ sumVI s' = sumVI s + sumFirst n (fun k => v (i + k)%nat * c (i + k)%nat).
Proof.
  revert i s. induction n as [|n IH]; intros i s.
  - simpl. repeat split; lra.
  - cbn zeta.
    change (sampleLoop analogRead voltagePin currentPin (S n) i s)
      with (sampleLoop analogRead voltagePin currentPin n (S i)
              (sampleStep analogRead voltagePin currentPin s i)).
    destruct (IH (S i) (sampleStep analogRead voltagePin currentPin s i))
      as (HV & HI & HVI).
    destruct (sampleStep_sums s i) as (SV & SI & SVI).
    rewrite HV, HI, HVI, SV, SI, SVI.
    rewrite !(sumFirst_shift n).
    rewrite !Nat.add_0_r.
    repeat split.
    + rewrite Rplus_assoc. do 2 f_equal. apply sumFirst_ext. intros k _.
      now rewrite Nat.add_succ_r.
    + rewrite Rplus_assoc. do 2 f_equal. apply sumFirst_ext. intros k _.
      now rewrite Nat.add_succ_r.
    + rewrite Rplus_assoc. do 2 f_equal. apply sumFirst_ext. intros k _.
      now rewrite Nat.add_succ_r.
Qed.

Lemma window_sums :
  let s := sampleLoop analogRead voltagePin currentPin
                      (Z.to_nat totalSamples) 0 initSums in
  sumVSq s = sumFirst (Z.to_nat totalSamples) (fun k => v k * v k)
  /\ sumISq s = sumFirst (Z.to_nat totalSamples) (fun k => c k * c k)
  /\ sumVI s = sumFirst (Z.to_nat totalSamples) (fun k => v k * c k).
Proof.
  cbn zeta.
  destruct (sampleLoop_sums (Z.to_nat totalSamples) 0 initSums)
    as (HV & HI & HVI).
  rewrite HV, HI, HVI. simpl sumVSq. simpl sumISq. simpl sumVI.
  repeat split; rewrite Rplus_0_l; reflexivity.
Qed.

End SamplingLoop.

(** ** The derivation of the metrics from the sums *)

Ltac fields :=
  cbn [voltageRms currentRms powerFactor realPower apparentPower reactivePower
       set_voltageRms set_currentRms set_powerFactor set_realPower
       set_apparentPower set_reactivePower zeroPhase].

Lemma deriveMetrics_rms (sVSq sISq sVI : R) :
  voltageRms (deriveMetrics sVSq sISq sVI)
  = sqrt (sVSq / IZR totalSamples) * VOLTAGE_CALIBRATION
  /\ currentRms (deriveMetrics sVSq sISq sVI) = sqrt (sISq / IZR totalSamples).
Proof.
  unfold deriveMetrics. fields.
  destruct (Rgt_dec (sqrt (sISq / IZR totalSamples)) 0.05); fields.
  - destruct (Rgt_dec _ 0); fields; split; reflexivity.
  - split; reflexivity.
Qed.

Lemma deriveMetrics_idle (sVSq sISq sVI : R) :
  sqrt (sISq / IZR totalSamples) <= 0.05 ->
  powerFieldsZero (deriveMetrics sVSq sISq sVI).
Proof.
  intros Hidle. unfold deriveMetrics, powerFieldsZero. fields.
  destruct (Rgt_dec (sqrt (sISq / IZR totalSamples)) 0.05); [lra|].
  fields. repeat split; reflexivity.
Qed.

Lemma deriveMetrics_active (sVSq sISq sVI : R) :
  sqrt (sISq / IZR totalSamples) > 0.05 ->
  let r := deriveMetrics sVSq sISq sVI in
  realPower r = sVI / IZR totalSamples * VOLTAGE_CALIBRATION
  /\ apparentPower r = voltageRms r * currentRms r
  /\ powerFactor r
     = (if Rgt_dec (apparentPower r) 0
        then Arduino.abs
               (Arduino.constrain (realPower r / apparentPower r) (-1.0) 1.0)
        else 0)
  /\ reactivePower r
     = sqrt (Arduino.max 0.0
               (apparentPower r * apparentPower r
                - realPower r * realPower r)).
Proof.
  intros Hact. unfold deriveMetrics. fields.
  destruct (Rgt_dec (sqrt (sISq / IZR totalSamples)) 0.05); [|lra].
  fields.
  destruct (Rgt_dec _ 0) as [Hs|Hs]; fields.
  - destruct (Rgt_dec _ 0); [|lra]. repeat split; reflexivity.
  - destruct (Rgt_dec _ 0); [lra|]. repeat split; reflexivity.
Qed.

(** ** measurePhase in terms of the window sums *)

Lemma measurePhase_sums (analogRead : AnalogRead) (voltagePin currentPin : Z) :
  measurePhase analogRead voltagePin currentPin
  = deriveMetrics
      (sumFirst (Z.to_nat totalSamples)
         (fun k => voltsOf (analogRead voltagePin k)
                   * voltsOf (analogRead voltagePin k)))
      (sumFirst (Z.to_nat totalSamples)
         (fun k => ampsOf (analogRead currentPin k)
                   * ampsOf (analogRead currentPin k)))
      (sumFirst (Z.to_nat totalSamples)
         (fun k => voltsOf (analogRead voltagePin k)
                   * ampsOf (analogRead currentPin k))).
Proof.
  unfold measurePhase. cbn zeta.
  destruct (window_sums analogRead voltagePin currentPin) as (HV & HI & HVI).
  rewrite HV, HI, HVI. reflexivity.
Qed.

Lemma mean_squares_nonneg (f : nat -> R) : 0 <= mean (fun k => f k * f k).
Proof.
  unfold mean. apply Rmult_le_pos.
  - apply sumFirst_squares_nonneg.
  - left. apply Rinv_0_lt_compat, totalSamples_pos.
Qed.

Lemma mean_const (x : R) : mean (fun _ => x) = x.
Proof.
  unfold mean. rewrite sumFirst_const, totalSamples_INR.
  field. apply Rgt_not_eq, totalSamples_pos.
Qed.

Lemma mean_scale (x : R) (f : nat -> R) :
  mean (fun k => x * f k) = x * mean f.
Proof. unfold mean. rewrite sumFirst_scale. unfold Rdiv. ring. Qed.

Lemma mean_ext (f g : nat -> R) :
  (forall k, (k < Z.to_nat totalSamples)%nat -> f k = g k) -> mean f = mean g.
Proof. intros H. unfold mean. now rewrite (sumFirst_ext _ f g H). Qed.

Lemma measurePhase_rms (analogRead : AnalogRead) (voltagePin currentPin : Z) :
  voltageRms (measurePhase analogRead voltagePin currentPin)
  = sqrt (mean (fun k => voltsOf (analogRead voltagePin k)
                         * voltsOf (analogRead voltagePin k)))
    * VOLTAGE_CALIBRATION
  /\ currentRms (measurePhase analogRead voltagePin currentPin)
     = sqrt (mean (fun k => ampsOf (analogRead currentPin k)
                            * ampsOf (analogRead currentPin k))).
Proof. rewrite measurePhase_sums. apply deriveMetrics_rms. Qed.

Lemma measurePhase_idle (analogRead : AnalogRead) (voltagePin currentPin : Z) :
  currentRms (measurePhase analogRead voltagePin currentPin) <= 0.05 ->
  powerFieldsZero (measurePhase analogRead voltagePin currentPin).
Proof.
  rewrite measurePhase_sums. intros H. apply deriveMetrics_idle.
  now rewrite (proj2 (deriveMetrics_rms _ _ _)) in H.
Qed.

Lemma measurePhase_active (analogRead : AnalogRead) (voltagePin currentPin : Z) :
  currentRms (measurePhase analogRead voltagePin currentPin) > 0.05 ->
  let r := measurePhase analogRead voltagePin currentPin in
  realPower r
  = mean (fun k => voltsOf (analogRead voltagePin k)
                   * ampsOf (analogRead currentPin k))
    * VOLTAGE_CALIBRATION
  /\ apparentPower r = voltageRms r * currentRms r
  /\ powerFactor r
     = (if Rgt_dec (apparentPower r) 0
        then Arduino.abs
               (Arduino.constrain (realPower r / apparentPower r) (-1.0) 1.0)
        else 0)
  /\ reactivePower r
     = sqrt (Arduino.max 0.0
               (apparentPower r * apparentPower r
                - realPower r * realPower r)).
Proof.
  rewrite measurePhase_sums. intros H.
  rewrite (proj2 (deriveMetrics_rms _ _ _)) in H.
  apply (deriveMetrics_active _ _ _ H).
Qed.

Lemma measurePhase_rms_nonneg (analogRead : AnalogRead)
    (voltagePin currentPin : Z) :
  0 <= voltageRms (measurePhase analogRead voltagePin currentPin)
  /\ 0 <= currentRms (measurePhase analogRead voltagePin currentPin).
Proof.
  destruct (measurePhase_rms analogRead voltagePin currentPin) as (HV & HI).
  rewrite HV, HI. split.
  - apply Rmult_le_pos; [apply sqrt_pos | left; apply calibration_pos].
  - apply sqrt_pos.
Qed.

Lemma measurePhase_apparent_nonneg (analogRead : AnalogRead)
    (voltagePin currentPin : Z) :
  0 <= apparentPower (measurePhase analogRead voltagePin currentPin).
Proof.
  destruct (Rgt_dec (currentRms (measurePhase analogRead voltagePin currentPin))
                    0.05) as [Hact|Hidle].
  - destruct (measurePhase_active _ _ _ Hact) as (_ & HS & _).
    rewrite HS.
    destruct (measurePhase_rms_nonneg analogRead voltagePin currentPin).
    now apply Rmult_le_pos.
  - destruct (measurePhase_idle analogRead voltagePin currentPin)
      as (_ & HS & _); [lra|]. rewrite HS. lra.
Qed.

(** The power factor of a measured phase is the clamped quotient of its own
    real and apparent power, and zero when there is no apparent power. *)
Lemma measurePhase_powerFactor (analogRead : AnalogRead)
    (voltagePin currentPin : Z) :
  let r := measurePhase analogRead voltagePin currentPin in
  powerFactor r
  = (if Rgt_dec (apparentPower r) 0
     then Arduino.abs
            (Arduino.constrain (realPower r / apparentPower r) (-1.0) 1.0)
     else 0).
Proof.
  cbn zeta.
  destruct (Rgt_dec (currentRms (measurePhase analogRead voltagePin currentPin))
                    0.05) as [Hact|Hidle].
  - now destruct (measurePhase_active _ _ _ Hact) as (_ & _ & Hpf & _).
  - destruct (measurePhase_idle analogRead voltagePin currentPin)
      as (_ & HS & _ & Hpf); [lra|].
    rewrite Hpf, HS. destruct (Rgt_dec 0 0); [lra|reflexivity].
Qed.

Lemma measurePhase_reactive (analogRead : AnalogRead)
    (voltagePin currentPin : Z) :
  let r := measurePhase analogRead voltagePin currentPin in
  reactivePower r
  = sqrt (Arduino.max 0.0
            (apparentPower r * apparentPower r - realPower r * realPower r)).
Proof.
  cbn zeta.
  destruct (Rgt_dec (currentRms (measurePhase analogRead voltagePin currentPin))
                    0.05) as [Hact|Hidle].
  - now destruct (measurePhase_active _ _ _ Hact) as (_ & _ & _ & HQ).
  - destruct (measurePhase_idle analogRead voltagePin currentPin)
      as (HP & HS & HQ & _); [lra|].
    rewrite HQ, HS, HP. unfold Arduino.max.
    destruct (Rgt_dec 0.0 (0 * 0 - 0 * 0)); [lra|].
    replace (0 * 0 - 0 * 0) with 0 by ring. now rewrite sqrt_0.
Qed.

(** ** A converter that delivers a constant code pair *)

Lemma constant_stream_rms (analogRead : AnalogRead)
    (voltagePin currentPin rawV rawI : Z) :
  (forall k, analogRead voltagePin k = rawV) ->
  (forall k, analogRead currentPin k = rawI) ->
  voltageRms (measurePhase analogRead voltagePin currentPin)
  = Rabs (voltsOf rawV) * VOLTAGE_CALIBRATION
  /\ currentRms (measurePhase analogRead voltagePin currentPin)
     = Rabs (ampsOf rawI).
Proof.
  intros HV HI.
  destruct (measurePhase_rms analogRead voltagePin currentPin) as (EV & EI).
  rewrite EV, EI.
  rewrite (mean_ext _ (fun _ => voltsOf rawV * voltsOf rawV))
    by (intros k _; now rewrite HV).
  rewrite (mean_ext (fun k => ampsOf (analogRead currentPin k) * _)
                    (fun _ => ampsOf rawI * ampsOf rawI))
    by (intros k _; now rewrite HI).
  rewrite !mean_const.
  split; [f_equal|]; exact (sqrt_Rsqr_abs _).
Qed.

Lemma ampsOf_idle : Rabs (ampsOf 2048) <= 0.05.
Proof.
  unfold ampsOf, ACS712_OFFSET, ADC_VREF, ADC_MAX, ACS712_SENSITIVITY.
  apply Rabs_le. lra.
Qed.

Lemma voltsOf_full_scale : voltsOf 4095 = 1.65.
Proof. unfold voltsOf, ADC_VREF, ADC_MAX. lra. Qed.

(** ** measurePhase: formulas, dead band and invariants *)

(** C1.  For every stream of [totalSamples] raw code pairs, [measurePhase]
    returns [voltageRms = sqrt(mean(v^2)) * VOLTAGE_CALIBRATION] and
    [currentRms = sqrt(mean(i^2))], with [v] and [i] the instantaneous
    voltage and current of each pair; and when [currentRms] exceeds the noise
    floor, [realPower = mean(v*i) * VOLTAGE_CALIBRATION],
    [apparentPower = voltageRms * currentRms],
    [powerFactor = clamp(|realPower / apparentPower|, 0, 1)], or 0 when
    [apparentPower] is zero, and
    [reactivePower = sqrt(max(0, apparentPower^2 - realPower^2))]. *)
Theorem measurePhase_formulas (analogRead : AnalogRead)
    (voltagePin currentPin : Z) :
  let v := fun k => voltsOf (analogRead voltagePin k) in
  let i := fun k => ampsOf (analogRead currentPin k) in
  let r := measurePhase analogRead voltagePin currentPin in
  voltageRms r = sqrt (mean (fun k => v k * v k)) * VOLTAGE_CALIBRATION
  /\ currentRms r = sqrt (mean (fun k => i k * i k))
  /\ (currentRms r > NOISE_FLOOR ->
      realPower r = mean (fun k => v k * i k) * VOLTAGE_CALIBRATION
      /\ apparentPower r = voltageRms r * currentRms r
      /\ powerFactor r
         = (if Req_dec_T (apparentPower r) 0 then 0
            else clamp (Rabs (realPower r / apparentPower r)) 0 1)
      /\ reactivePower r
         = sqrt (Rmax 0 (apparentPower r * apparentPower r
                         - realPower r * realPower r))).
Proof.
  cbn zeta.
  destruct (measurePhase_rms analogRead voltagePin currentPin) as (HV & HI).
  split; [exact HV|]. split; [exact HI|].
  unfold NOISE_FLOOR. intros Hact.
  destruct (measurePhase_active _ _ _ Hact) as (HP & HS & Hpf & HQ).
  split; [exact HP|]. split; [exact HS|]. split.
  - rewrite Hpf.
    pose proof (measurePhase_apparent_nonneg analogRead voltagePin currentPin)
      as Hnn.
    destruct (Rgt_dec _ 0), (Req_dec_T _ 0); try lra.
    rewrite abs_constrain_unit, abs_Rabs.
    replace 0.0 with 0 by lra. replace 1.0 with 1 by lra.
    apply constrain_clamp. lra.
  - rewrite HQ, max_Rmax. do 2 f_equal. lra.
Qed.

(** C2.  If the computed [currentRms] is at or below the noise floor (0.05),
    the result of [measurePhase] has [realPower], [apparentPower],
    [reactivePower] and [powerFactor] all exactly 0. *)
Theorem measurePhase_dead_band (analogRead : AnalogRead)
    (voltagePin currentPin : Z) :
  currentRms (measurePhase analogRead voltagePin currentPin) <= NOISE_FLOOR ->
  realPower (measurePhase analogRead voltagePin currentPin) = 0
  /\ apparentPower (measurePhase analogRead voltagePin currentPin) = 0
  /\ reactivePower (measurePhase analogRead voltagePin currentPin) = 0
  /\ powerFactor (measurePhase analogRead voltagePin currentPin) = 0.
Proof. unfold NOISE_FLOOR. intros H. now apply measurePhase_idle. Qed.

(** An idle current channel (code 2048 in every pass) lies in the dead band. *)
Lemma measurePhase_dead_band_witness :
  currentRms (measurePhase (constantRead 4095 2048 34) 34 35) <= NOISE_FLOOR
  /\ realPower (measurePhase (constantRead 4095 2048 34) 34 35) = 0
  /\ apparentPower (measurePhase (constantRead 4095 2048 34) 34 35) = 0
  /\ reactivePower (measurePhase (constantRead 4095 2048 34) 34 35) = 0
  /\ powerFactor (measurePhase (constantRead 4095 2048 34) 34 35) = 0.
Proof.
  assert (H : currentRms (measurePhase (constantRead 4095 2048 34) 34 35)
              <= NOISE_FLOOR).
  { rewrite (proj2 (constant_stream_rms (constantRead 4095 2048 34) 34 35
                      4095 2048 (fun _ => eq_refl) (fun _ => eq_refl))).
    exact ampsOf_idle. }
  split; [exact H|].
  exact (measurePhase_dead_band (constantRead 4095 2048 34) 34 35 H).
Defined.

(** C3.  Every result of [measurePhase] has [powerFactor] in [0,1],
    [apparentPower >= 0] and
    [reactivePower = sqrt(max(0, apparentPower^2 - realPower^2))]; and the
    overall power factor of the aggregation step lies in [0,1] as well,
    whatever the phase results are. *)
Theorem power_factor_invariants :
  (forall (analogRead : AnalogRead) (voltagePin currentPin : Z),
      let r := measurePhase analogRead voltagePin currentPin in
      0 <= powerFactor r <= 1
      /\ 0 <= apparentPower r
      /\ reactivePower r
         = sqrt (Rmax 0 (apparentPower r * apparentPower r
                         - realPower r * realPower r)))
  /\ (forall (threshold : R) (ps : list PhaseData),
         0 <= overallPF (aggregate threshold ps) <= 1)
  /\ (forall reads : nat -> AnalogRead, 0 <= overallPF (loop reads) <= 1).
Proof.
  assert (Hagg : forall (threshold : R) (ps : list PhaseData),
             0 <= overallPF (aggregate threshold ps) <= 1).
  { intros threshold ps. unfold aggregate. cbn zeta.
    destruct (Rgt_dec _ 0); cbn [overallPF]; [|lra].
    pose proof (constrain_bounds
                  (Arduino.abs
                     (totalRealPower (fold_left (phaseStep threshold) ps
                                                initTotals)
                      / totalApparentPower (fold_left (phaseStep threshold) ps
                                                      initTotals)))
                  0.0 1.0) as Hb.
    lra. }
  split; [|split; [exact Hagg | intros reads; apply Hagg]].
  intros analogRead voltagePin currentPin. cbn zeta.
  split; [|split].
  - rewrite (measurePhase_powerFactor analogRead voltagePin currentPin).
    destruct (Rgt_dec _ 0); [apply abs_constrain_range | lra].
  - apply measurePhase_apparent_nonneg.
  - rewrite (measurePhase_reactive analogRead voltagePin currentPin).
    rewrite max_Rmax. do 2 f_equal. lra.
Qed.

(** C10.  For every real [x], [abs(constrain(x, -1, 1))], the clamping of
    the per-phase power factor, equals [constrain(abs(x), 0, 1)], the
    clamping of the overall power factor, and both are the specification's
    [clamp(|x|, 0, 1)]. *)
Theorem clamping_orders_agree (x : R) :
  Arduino.abs (Arduino.constrain x (-1) 1)
  = Arduino.constrain (Arduino.abs x) 0 1
  /\ Arduino.abs (Arduino.constrain x (-1) 1) = clamp (Rabs x) 0 1
  /\ Arduino.constrain (Arduino.abs x) 0 1 = clamp (Rabs x) 0 1.
Proof.
  assert (H : Arduino.constrain (Arduino.abs x) 0 1 = clamp (Rabs x) 0 1).
  { rewrite abs_Rabs. apply constrain_clamp. lra. }
  assert (E : Arduino.abs (Arduino.constrain x (-1) 1)
              = Arduino.constrain (Arduino.abs x) 0 1).
  { pose proof (abs_constrain_unit x) as A.
    replace (-1.0) with (-1) in A by lra.
    replace 1.0 with 1 in A by lra. replace 0.0 with 0 in A by lra.
    exact A. }
  split; [exact E|]. split; [rewrite E|]; exact H.
Qed.

(** ** Aggregation *)

(** One pass of [loop] aggregates the results of the three phases, measured
    on their pins in the order R, Y, B, against [PF_THRESHOLD]. *)
Lemma loop_three_phases (reads : nat -> AnalogRead) :
  loop reads
  = aggregate PF_THRESHOLD
      [measurePhase (reads 0%nat) 34 35; measurePhase (reads 1%nat) 32 33;
       measurePhase (reads 2%nat) 25 26].
Proof. reflexivity. Qed.

Lemma aggregate3_totals (threshold : R) (p1 p2 p3 : PhaseData) :
  let t := fold_left (phaseStep threshold) [p1; p2; p3] initTotals in
  totalRealPower t = realPower p1 + realPower p2 + realPower p3
  /\ totalApparentPower t
     = apparentPower p1 + apparentPower p2 + apparentPower p3.
Proof. cbn. split; ring. Qed.

Lemma aggregate_fields (threshold : R) (ps : list PhaseData) :
  let t := fold_left (phaseStep threshold) ps initTotals in
  let s := aggregate threshold ps in
  totalReal s = totalRealPower t
  /\ totalApparent s = totalApparentPower t
  /\ alertRaised s = anyLowPF t
  /\ overallPF s
     = (if Rgt_dec (totalApparentPower t) 0
        then Arduino.constrain
               (Arduino.abs (totalRealPower t / totalApparentPower t)) 0.0 1.0
        else 0)
  /\ totalReactive s
     = (if Rgt_dec (totalApparentPower t) 0
        then sqrt (Arduino.max 0.0
                     (totalApparentPower t * totalApparentPower t
                      - totalRealPower t * totalRealPower t))
        else 0).
Proof.
  cbn zeta. unfold aggregate. cbn zeta.
  destruct (Rgt_dec _ 0); cbn; repeat split; reflexivity.
Qed.

Lemma phaseStep_alert (threshold : R) (t : Totals) (p : PhaseData) :
  anyLowPF (phaseStep threshold t p) = true
  <-> anyLowPF t = true \/ lowPF threshold p.
Proof.
  unfold phaseStep, lowPF, PF_EPSILON, Rgtb, Rltb. cbn [anyLowPF].
  destruct (Rgt_dec (powerFactor p) 0.01), (Rlt_dec (powerFactor p) threshold);
    cbn; split; intros H;
    try (left; exact H); try (right; split; lra); try reflexivity;
    destruct H as [H|[H1 H2]]; try exact H; lra.
Qed.

Lemma fold_alert (threshold : R) (ps : list PhaseData) (t : Totals) :
  anyLowPF (fold_left (phaseStep threshold) ps t) = true
  <-> anyLowPF t = true \/ Exists (lowPF threshold) ps.
Proof.
  revert t. induction ps as [|p ps IH]; intros t; cbn [fold_left].
  - split; [now left | intros [H|H]; [exact H | inversion H]].
  - rewrite IH, phaseStep_alert, Exists_cons. tauto.
Qed.

(** C4.  For any three phase records (records that keep the invariant of the
    data model, [apparentPower >= 0], as every result of [measurePhase]
    does), aggregation gives [totalRealPower] and [totalApparentPower] as the
    arithmetic sums of the three [realPower] and [apparentPower] fields,
    [overallPowerFactor = clamp(|totalRealPower / totalApparentPower|, 0, 1)]
    when [totalApparentPower > 0] and 0 otherwise, and
    [totalReactivePower = sqrt(max(0, totalApparentPower^2 - totalRealPower^2))],
    recomputed from the totals and not summed from the phases. *)
Theorem aggregate_totals (threshold : R) (p1 p2 p3 : PhaseData) :
  0 <= apparentPower p1 -> 0 <= apparentPower p2 -> 0 <= apparentPower p3 ->
  let s := aggregate threshold [p1; p2; p3] in
  totalReal s = realPower p1 + realPower p2 + realPower p3
  /\ totalApparent s = apparentPower p1 + apparentPower p2 + apparentPower p3
  /\ overallPF s
     = (if Rgt_dec (totalApparent s) 0
        then clamp (Rabs (totalReal s / totalApparent s)) 0 1
        else 0)
  /\ totalReactive s
     = sqrt (Rmax 0 (totalApparent s * totalApparent s
                     - totalReal s * totalReal s)).
Proof.
  intros H1 H2 H3. cbn zeta.
  destruct (aggregate_fields threshold [p1; p2; p3])
    as (HP & HS & _ & Hpf & HQ).
  destruct (aggregate3_totals threshold p1 p2 p3) as (TP & TS).
  rewrite Hpf, HQ, HP, HS, TP, TS.
  split; [reflexivity|]. split; [reflexivity|].
  set (P := realPower p1 + realPower p2 + realPower p3).
  set (S := apparentPower p1 + apparentPower p2 + apparentPower p3).
  split.
  - destruct (Rgt_dec S 0); [|reflexivity].
    rewrite abs_Rabs. replace 0.0 with 0 by lra. replace 1.0 with 1 by lra.
    apply constrain_clamp. lra.
  - destruct (Rgt_dec S 0) as [Hpos|Hnpos].
    + rewrite max_Rmax. do 2 f_equal. lra.
    + assert (HS0 : S = 0) by (subst S; lra).
      rewrite HS0. rewrite Rmax_left by nra. now rewrite sqrt_0.
Qed.

(** Three measured phases: one with both channels swinging rail to rail, one
    with an idle current channel, one with both channels at full scale. *)
Lemma aggregate_totals_witness :
  let p1 := measurePhase (alternatingRead 4095 0) 34 35 in
  let p2 := measurePhase (constantRead 4095 2048 32) 32 33 in
  let p3 := measurePhase (constantRead 4095 4095 25) 25 26 in
  let s := aggregate PF_THRESHOLD [p1; p2; p3] in
  (0 <= apparentPower p1 /\ 0 <= apparentPower p2 /\ 0 <= apparentPower p3)
  /\ totalReal s = realPower p1 + realPower p2 + realPower p3
  /\ totalApparent s = apparentPower p1 + apparentPower p2 + apparentPower p3
  /\ overallPF s
     = (if Rgt_dec (totalApparent s) 0
        then clamp (Rabs (totalReal s / totalApparent s)) 0 1
        else 0)
  /\ totalReactive s
     = sqrt (Rmax 0 (totalApparent s * totalApparent s
                     - totalReal s * totalReal s)).
Proof.
  cbn zeta.
  pose proof (measurePhase_apparent_nonneg (alternatingRead 4095 0) 34 35)
    as H1.
  pose proof (measurePhase_apparent_nonneg (constantRead 4095 2048 32) 32 33)
    as H2.
  pose proof (measurePhase_apparent_nonneg (constantRead 4095 4095 25) 25 26)
    as H3.
  split; [repeat split; assumption|].
  exact (aggregate_totals PF_THRESHOLD _ _ _ H1 H2 H3).
Defined.

(** C5.  For any three phase records and any threshold, the alert is raised
    if and only if at least one phase has [powerFactor] strictly above 0.01
    and strictly below the threshold.  In particular a power factor of 0
    raises no alert, 0.5 against the threshold 0.85 raises it, and 0.9
    against 0.85 does not. *)
Theorem alert_iff_some_phase_low :
  (forall (threshold : R) (p1 p2 p3 : PhaseData),
      alertRaised (aggregate threshold [p1; p2; p3]) = true
      <-> ((0.01 < powerFactor p1 /\ powerFactor p1 < threshold)
           \/ (0.01 < powerFactor p2 /\ powerFactor p2 < threshold)
           \/ (0.01 < powerFactor p3 /\ powerFactor p3 < threshold)))
  /\ (forall (threshold : R) (p : PhaseData),
         powerFactor p = 0 ->
         alertRaised (aggregate threshold [p; p; p]) = false)
  /\ (forall p q r : PhaseData,
         powerFactor p = 0.5 ->
         alertRaised (aggregate 0.85 [p; q; r]) = true
         /\ alertRaised (aggregate 0.85 [q; p; r]) = true
         /\ alertRaised (aggregate 0.85 [q; r; p]) = true)
  /\ (forall p : PhaseData,
         powerFactor p = 0.9 ->
         alertRaised (aggregate 0.85 [p; p; p]) = false)
  /\ PF_THRESHOLD = 0.85.
Proof.
  assert (Hiff : forall (threshold : R) (p1 p2 p3 : PhaseData),
             alertRaised (aggregate threshold [p1; p2; p3]) = true
             <-> (lowPF threshold p1 \/ lowPF threshold p2
                  \/ lowPF threshold p3)).
  { intros threshold p1 p2 p3.
    destruct (aggregate_fields threshold [p1; p2; p3])
      as (_ & _ & Ha & _).
    rewrite Ha, fold_alert, !Exists_cons, Exists_nil.
    unfold initTotals. cbn [anyLowPF]. intuition discriminate. }
  unfold lowPF, PF_EPSILON in Hiff.
  split; [exact Hiff|]. split; [|split; [|split]].
  - intros threshold p Hp. apply not_true_is_false. rewrite Hiff, Hp. lra.
  - intros p q r Hp. rewrite !Hiff, !Hp. repeat split.
    + left. lra.
    + right. left. lra.
    + right. right. lra.
  - intros p Hp. apply not_true_is_false. rewrite Hiff, Hp. lra.
  - reflexivity.
Qed.




(** ** The retained previous sample *)

Lemma sampleLoop_NoPrev (analogRead : AnalogRead) (voltagePin currentPin : Z)
    (n i : nat) (s : Sums) (s' : SumsNoPrev) :
  sumVSq s = npSumVSq s' -> sumISq s = npSumISq s' -> sumVI s = npSumVI s' ->
  let e := sampleLoop analogRead voltagePin currentPin n i s in
  let e' := sampleLoopNoPrev analogRead voltagePin currentPin n i s' in
  sumVSq e = npSumVSq e' /\ sumISq e = npSumISq e' /\ sumVI e = npSumVI e'.
Proof.
  revert i s s'. induction n as [|n IH]; intros i s s' HV HI HVI; cbn zeta.
  - simpl. auto.
  - simpl sampleLoop. simpl sampleLoopNoPrev.
    apply IH; unfold sampleStep, sampleStepNoPrev; simpl; congruence.
Qed.

(** C9.  The result of [measurePhase] does not depend on the retained
    previous sample: [prevV] and [prevI] are assigned in every pass and never
    read, so the function with those assignments removed returns the same
    result for every sample stream, and so does the loop started from any
    other values of [prevV] and [prevI]. *)
Theorem previous_sample_unused :
  (forall (analogRead : AnalogRead) (voltagePin currentPin : Z),
      measurePhaseNoPrev analogRead voltagePin currentPin
      = measurePhase analogRead voltagePin currentPin)
  /\ (forall (analogRead : AnalogRead) (voltagePin currentPin : Z)
             (pV pI : R),
         let s := sampleLoop analogRead voltagePin currentPin
                             (Z.to_nat totalSamples) 0 (mkSums 0 0 0 pV pI) in
         deriveMetrics (sumVSq s) (sumISq s) (sumVI s)
         = measurePhase analogRead voltagePin currentPin).
Proof.
  split.
  - intros analogRead voltagePin currentPin.
    unfold measurePhaseNoPrev, measurePhase. cbn zeta.
    destruct (sampleLoop_NoPrev analogRead voltagePin currentPin
                (Z.to_nat totalSamples) 0 initSums initSumsNoPrev
                eq_refl eq_refl eq_refl) as (HV & HI & HVI).
    now rewrite HV, HI, HVI.
  - intros analogRead voltagePin currentPin pV pI. cbn zeta.
    unfold measurePhase. cbn zeta.
    destruct (sampleLoop_sums analogRead voltagePin currentPin
                (Z.to_nat totalSamples) 0 (mkSums 0 0 0 pV pI))
      as (HV & HI & HVI).
    destruct (sampleLoop_sums analogRead voltagePin currentPin
                (Z.to_nat totalSamples) 0 initSums) as (HV' & HI' & HVI').
    rewrite HV, HI, HVI, HV', HI', HVI'. reflexivity.
Qed.

(** ** Divisions and square roots *)

Lemma sampleStepChecked_total (analogRead : AnalogRead)
    (voltagePin currentPin : Z) (s : Sums) (i : nat) :
  sampleStepChecked analogRead voltagePin currentPin s i
  = Some (sampleStep analogRead voltagePin currentPin s i).
Proof.
  unfold sampleStepChecked, sampleStep, ACS712_OFFSET_checked, ACS712_OFFSET,
    checkedDiv. cbn zeta.
  destruct (Req_dec_T ADC_MAX 0) as [E|_];
    [unfold ADC_MAX in E; lra|]. cbn [bind].
  destruct (Req_dec_T 2.0 0) as [E|_]; [lra|]. cbn [bind].
  destruct (Req_dec_T ACS712_SENSITIVITY 0) as [E|_];
    [unfold ACS712_SENSITIVITY in E; lra|]. cbn [bind].
  reflexivity.
Qed.

Lemma sampleLoopChecked_total (analogRead : AnalogRead)
    (voltagePin currentPin : Z) (n i : nat) (s : Sums) :
  sampleLoopChecked analogRead voltagePin currentPin n i s
  = Some (sampleLoop analogRead voltagePin currentPin n i s).
Proof.
  revert i s. induction n as [|n IH]; intros i s.
  - reflexivity.
  - cbn [sampleLoopChecked sampleLoop].
    rewrite sampleStepChecked_total. cbn [bind]. apply IH.
Qed.

Lemma deriveMetricsChecked_total (sVSq sISq sVI : R) :
  0 <= sVSq -> 0 <= sISq ->
  deriveMetricsChecked sVSq sISq sVI = Some (deriveMetrics sVSq sISq sVI).
Proof.
  intros HV HI.
  assert (HN : 0 < / IZR totalSamples)
    by (apply Rinv_0_lt_compat, totalSamples_pos).
  assert (HmV : 0 <= sVSq / IZR totalSamples) by (apply Rmult_le_pos; lra).
  assert (HmI : 0 <= sISq / IZR totalSamples) by (apply Rmult_le_pos; lra).
  unfold deriveMetricsChecked, deriveMetrics, checkedDiv, checkedSqrt.
  cbn zeta.
  destruct (Req_dec_T (IZR totalSamples) 0) as [E|_];
    [pose proof totalSamples_pos; lra|]. cbn [bind].
  destruct (Rlt_dec (sVSq / IZR totalSamples) 0); [lra|]. cbn [bind].
  destruct (Rlt_dec (sISq / IZR totalSamples) 0); [lra|]. cbn [bind].
  fields.
  destruct (Rgt_dec (sqrt (sISq / IZR totalSamples)) 0.05); [|reflexivity].
  fields.
  destruct (Rgt_dec _ 0) as [Hpos|Hnpos]; fields.
  - destruct (Req_dec_T _ 0) as [E|_]; [lra|]. cbn [bind]. fields.
    destruct (Rlt_dec (Arduino.max 0.0 _) 0) as [Hneg|_];
      [pose proof (sqrt_max_nonneg_arg
                     (sqrt (sVSq / IZR totalSamples) * VOLTAGE_CALIBRATION
                      * sqrt (sISq / IZR totalSamples)
                      * (sqrt (sVSq / IZR totalSamples) * VOLTAGE_CALIBRATION
                         * sqrt (sISq / IZR totalSamples))
                      - sVI / IZR totalSamples * VOLTAGE_CALIBRATION
                        * (sVI / IZR totalSamples * VOLTAGE_CALIBRATION)));
       lra|].
    reflexivity.
  - cbn [bind]. fields.
    destruct (Rlt_dec (Arduino.max 0.0 _) 0) as [Hneg|_];
      [pose proof (sqrt_max_nonneg_arg
                     (sqrt (sVSq / IZR totalSamples) * VOLTAGE_CALIBRATION
                      * sqrt (sISq / IZR totalSamples)
                      * (sqrt (sVSq / IZR totalSamples) * VOLTAGE_CALIBRATION
                         * sqrt (sISq / IZR totalSamples))
                      - sVI / IZR totalSamples * VOLTAGE_CALIBRATION
                        * (sVI / IZR totalSamples * VOLTAGE_CALIBRATION)));
       lra|].
    reflexivity.
Qed.

Lemma voltsOf_nonzero (rawV : Z) : voltsOf rawV <> 0.
Proof.
  unfold voltsOf, ADC_VREF, ADC_MAX. intros H.
  assert (E : IZR (2 * rawV) = IZR 4095) by (rewrite mult_IZR; lra).
  apply eq_IZR in E. lia.
Qed.

Lemma sumFirst_squares_pos (n : nat) (f : nat -> R) :
  (0 < n)%nat -> (forall k, f k <> 0) -> 0 < sumFirst n (fun k => f k * f k).
Proof.
  intros Hn Hf. destruct n as [|n]; [lia|]. simpl.
  pose proof (sumFirst_squares_nonneg n f).
  pose proof (Hf n). nra.
Qed.

Lemma measurePhase_voltageRms_pos (analogRead : AnalogRead)
    (voltagePin currentPin : Z) :
  0 < voltageRms (measurePhase analogRead voltagePin currentPin).
Proof.
  rewrite (proj1 (measurePhase_rms analogRead voltagePin currentPin)).
  apply Rmult_lt_0_compat; [|apply calibration_pos].
  apply sqrt_lt_R0. unfold mean. apply Rmult_lt_0_compat.
  - apply (sumFirst_squares_pos _ (fun k => voltsOf (analogRead voltagePin k))).
    + apply INR_lt. rewrite totalSamples_INR. simpl. apply totalSamples_pos.
    + intros k. apply voltsOf_nonzero.
  - apply Rinv_0_lt_compat, totalSamples_pos.
Qed.

(** C6, as stated, fails: with an idle current channel (near-zero current)
    the result is not the all-zero record, since [voltageRms] and
    [currentRms] keep the values measured. *)
Lemma degenerate_result_not_all_zero :
  let r := measurePhase (constantRead 4095 2048 34) 34 35 in
  currentRms r <= NOISE_FLOOR
  /\ voltageRms r = 1.65 * VOLTAGE_CALIBRATION
  /\ r <> zeroPhase.
Proof.
  cbn zeta.
  destruct (constant_stream_rms (constantRead 4095 2048 34) 34 35 4095 2048
              (fun _ => eq_refl) (fun _ => eq_refl)) as (HV & HI).
  assert (EV : voltageRms (measurePhase (constantRead 4095 2048 34) 34 35)
               = 1.65 * VOLTAGE_CALIBRATION).
  { rewrite HV, voltsOf_full_scale, Rabs_right by lra. reflexivity. }
  split; [rewrite HI; exact ampsOf_idle|]. split; [exact EV|].
  intros E. rewrite E in EV. cbn [voltageRms zeroPhase] in EV.
  unfold VOLTAGE_CALIBRATION in EV. lra.
Qed.

(** C6, amended.  [measurePhase] raises no exception and performs no
    unguarded division: with every division and square root checked it still
    returns, and returns the same result, for every sample stream (the
    division by [apparentPower] runs only under the guard
    [apparentPower > 0], every other divisor is a nonzero constant or the
    positive [totalSamples]); and every degenerate input (zero apparent
    power, near-zero current) resolves to a result whose four derived fields
    [realPower], [apparentPower], [reactivePower] and [powerFactor] are 0. *)
Theorem measurePhase_division_safe (analogRead : AnalogRead)
    (voltagePin currentPin : Z) :
  let r := measurePhase analogRead voltagePin currentPin in
  measurePhaseChecked analogRead voltagePin currentPin = Some r
  /\ (currentRms r <= NOISE_FLOOR \/ apparentPower r = 0 ->
      realPower r = 0 /\ apparentPower r = 0 /\ reactivePower r = 0
      /\ powerFactor r = 0).
Proof.
  cbn zeta. split.
  - unfold measurePhaseChecked, measurePhase. cbn zeta.
    rewrite sampleLoopChecked_total. cbn [bind].
    destruct (window_sums analogRead voltagePin currentPin) as (HV & HI & _).
    apply deriveMetricsChecked_total.
    + rewrite HV. apply sumFirst_squares_nonneg.
    + rewrite HI. apply sumFirst_squares_nonneg.
  - unfold NOISE_FLOOR. intros [Hidle|Hzero].
    + now apply measurePhase_idle.
    + destruct (Rgt_dec
                  (currentRms (measurePhase analogRead voltagePin currentPin))
                  0.05) as [Hact|Hidle].
      * destruct (measurePhase_active _ _ _ Hact) as (_ & HS & _).
        pose proof (measurePhase_voltageRms_pos analogRead voltagePin
                                                currentPin) as HVpos.
        rewrite HS in Hzero. nra.
      * apply measurePhase_idle. lra.
Qed.

(** * Further properties of the measurement *)

(** ** Real power against apparent power *)

Lemma sumFirst_cauchy_schwarz (n : nat) (a b : nat -> R) :
  sumFirst n (fun k => a k * b k) * sumFirst n (fun k => a k * b k)
  <= sumFirst n (fun k => a k * a k) * sumFirst n (fun k => b k * b k).
Proof.
  induction n as [|n IH]; simpl.
  - lra.
  - pose proof (sumFirst_squares_nonneg n a) as HX.
    pose proof (sumFirst_squares_nonneg n b) as HY.
    set (X := sumFirst n (fun k => a k * a k)) in *.
    set (Y := sumFirst n (fun k => b k * b k)) in *.
    set (Z := sumFirst n (fun k => a k * b k)) in *.
    set (x := a n). set (y := b n).
    assert (Hu : 0 <= X * (y * y) + x * x * Y).
    { apply Rplus_le_le_0_compat; apply Rmult_le_pos; nra. }
    assert (Hsq : (2 * Z * x * y) * (2 * Z * x * y)
                  <= (X * (y * y) + x * x * Y) * (X * (y * y) + x * x * Y)).
    { assert (H1 : (2 * Z * x * y) * (2 * Z * x * y)
                   <= 4 * (X * Y) * (x * x * (y * y))).
      { replace ((2 * Z * x * y) * (2 * Z * x * y))
          with (4 * (Z * Z) * (x * x * (y * y))) by ring.
        apply Rmult_le_compat_r; [nra|]. lra. }
      assert (H2 : 0 <= (X * (y * y) - x * x * Y) * (X * (y * y) - x * x * Y))
        by exact (Rle_0_sqr _).
      nra. }
    assert (Hc : 2 * Z * x * y <= X * (y * y) + x * x * Y).
    { destruct (Rle_dec (2 * Z * x * y) (X * (y * y) + x * x * Y)) as [H|H];
        [exact H|]. exfalso. nra. }
    nra.
Qed.

(** In exact arithmetic the real power is within the apparent power. *)
Lemma measurePhase_power_squares (analogRead : AnalogRead)
    (voltagePin currentPin : Z) :
  let r := measurePhase analogRead voltagePin currentPin in
  realPower r * realPower r <= apparentPower r * apparentPower r.
Proof.
  cbn zeta.
  destruct (Rgt_dec (currentRms (measurePhase analogRead voltagePin currentPin))
                    0.05) as [Hact|Hidle].
  - destruct (measurePhase_active _ _ _ Hact) as (HP & HS & _).
    destruct (measurePhase_rms analogRead voltagePin currentPin) as (HV & HI).
    rewrite HS, HP, HV, HI.
    set (v := fun k => voltsOf (analogRead voltagePin k)).
    set (c := fun k => ampsOf (analogRead currentPin k)).
    pose proof (mean_squares_nonneg v) as HmV.
    pose proof (mean_squares_nonneg c) as HmI.
    change (mean (fun k => voltsOf (analogRead voltagePin k)
                           * voltsOf (analogRead voltagePin k)))
      with (mean (fun k => v k * v k)).
    change (mean (fun k => ampsOf (analogRead currentPin k)
                           * ampsOf (analogRead currentPin k)))
      with (mean (fun k => c k * c k)).
    change (mean (fun k => voltsOf (analogRead voltagePin k)
                           * ampsOf (analogRead currentPin k)))
      with (mean (fun k => v k * c k)).
    replace (sqrt (mean (fun k => v k * v k)) * VOLTAGE_CALIBRATION
             * sqrt (mean (fun k => c k * c k))
             * (sqrt (mean (fun k => v k * v k)) * VOLTAGE_CALIBRATION
                * sqrt (mean (fun k => c k * c k))))
      with ((sqrt (mean (fun k => v k * v k))
             * sqrt (mean (fun k => v k * v k)))
            * (sqrt (mean (fun k => c k * c k))
               * sqrt (mean (fun k => c k * c k)))
            * (VOLTAGE_CALIBRATION * VOLTAGE_CALIBRATION)) by ring.
    rewrite !sqrt_sqrt by assumption.
    replace (mean (fun k => v k * c k) * VOLTAGE_CALIBRATION
             * (mean (fun k => v k * c k) * VOLTAGE_CALIBRATION))
      with (mean (fun k => v k * c k) * mean (fun k => v k * c k)
            * (VOLTAGE_CALIBRATION * VOLTAGE_CALIBRATION)) by ring.
    apply Rmult_le_compat_r; [pose proof calibration_pos; nra|].
    unfold mean.
    pose proof (sumFirst_cauchy_schwarz (Z.to_nat totalSamples) v c) as CS.
    pose proof totalSamples_pos as HN.
    assert (HNi : 0 < / IZR totalSamples) by now apply Rinv_0_lt_compat.
    unfold Rdiv.
    set (A := sumFirst (Z.to_nat totalSamples) (fun k => v k * c k)) in *.
    set (B := sumFirst (Z.to_nat totalSamples) (fun k => v k * v k)) in *.
    set (C := sumFirst (Z.to_nat totalSamples) (fun k => c k * c k)) in *.
    replace (A * / IZR totalSamples * (A * / IZR totalSamples))
      with (A * A * (/ IZR totalSamples * / IZR totalSamples)) by ring.
    replace (B * / IZR totalSamples * (C * / IZR totalSamples))
      with (B * C * (/ IZR totalSamples * / IZR totalSamples)) by ring.
    apply Rmult_le_compat_r; [nra | exact CS].
  - destruct (measurePhase_idle analogRead voltagePin currentPin)
      as (HP & HS & _); [lra|]. rewrite HP, HS. lra.
Qed.

(** In exact arithmetic neither [constrain] nor [max] changes a value. *)
Lemma power_triangle_exact_aux (analogRead : AnalogRead)
    (voltagePin currentPin : Z) :
  let r := measurePhase analogRead voltagePin currentPin in
  Rabs (realPower r) <= apparentPower r
  /\ powerFactor r * apparentPower r = Rabs (realPower r)
  /\ 0 <= apparentPower r
  /\ 0 <= powerFactor r.
Proof.
  cbn zeta.
  pose proof (measurePhase_power_squares analogRead voltagePin currentPin)
    as Hsq.
  pose proof (measurePhase_apparent_nonneg analogRead voltagePin currentPin)
    as Hnn.
  pose proof (measurePhase_powerFactor analogRead voltagePin currentPin) as Hpf.
  cbn zeta in Hsq, Hpf. revert Hsq Hnn Hpf.
  generalize (measurePhase analogRead voltagePin currentPin). intros r.
  intros Hsq Hnn Hpf.
  split; [apply Rabs_le; split; nra|]. split; [|split; [exact Hnn|]].
  2:{ rewrite Hpf. destruct (Rgt_dec (apparentPower r) 0); [|lra].
      apply abs_constrain_range. }
  rewrite Hpf. destruct (Rgt_dec (apparentPower r) 0) as [Hpos|Hnpos].
  - assert (Hq : -1 <= realPower r / apparentPower r <= 1).
    { split.
      - apply Rmult_le_reg_r with (apparentPower r); [lra|].
        unfold Rdiv. rewrite Rmult_assoc, Rinv_l by lra. nra.
      - apply Rmult_le_reg_r with (apparentPower r); [lra|].
        unfold Rdiv. rewrite Rmult_assoc, Rinv_l by lra. nra. }
    unfold Arduino.constrain.
    destruct (Rlt_dec _ (-1.0)); [lra|]. destruct (Rgt_dec _ 1.0); [lra|].
    rewrite abs_Rabs. unfold Rdiv. rewrite Rabs_mult.
    rewrite (Rabs_right (/ apparentPower r))
      by (left; apply Rinv_0_lt_compat; lra).
    field. lra.
  - assert (H0 : apparentPower r = 0) by lra.
    rewrite H0 in *. assert (realPower r = 0) by nra.
    replace (realPower r) with 0 by lra. rewrite Rabs_R0. ring.
Qed.


(** ** Ranges *)

Lemma sumFirst_bounds (n : nat) (f : nat -> R) (lo hi : R) :
  (forall k, (k < n)%nat -> lo <= f k <= hi) ->
  INR n * lo <= sumFirst n f <= INR n * hi.
Proof.
  induction n as [|n IH]; intros Hf.
  - simpl. lra.
  - rewrite S_INR. simpl.
    assert (lo <= f n <= hi) by (apply Hf; lia).
    assert (INR n * lo <= sumFirst n f <= INR n * hi)
      by (apply IH; intros; apply Hf; lia).
    lra.
Qed.

Lemma mean_bounds (f : nat -> R) (lo hi : R) :
  (forall k, (k < Z.to_nat totalSamples)%nat -> lo <= f k <= hi) ->
  lo <= mean f <= hi.
Proof.
  intros Hf. unfold mean.
  pose proof (sumFirst_bounds _ f lo hi Hf) as H.
  rewrite totalSamples_INR in H.
  pose proof totalSamples_pos as HN.
  split.
  - apply Rmult_le_reg_r with (IZR totalSamples); [exact HN|].
    unfold Rdiv. rewrite Rmult_assoc, Rinv_l by lra. lra.
  - apply Rmult_le_reg_r with (IZR totalSamples); [exact HN|].
    unfold Rdiv. rewrite Rmult_assoc, Rinv_l by lra. lra.
Qed.







Lemma power_factor_range (analogRead : AnalogRead) (voltagePin currentPin : Z) :
  0 <= powerFactor (measurePhase analogRead voltagePin currentPin) <= 1.
Proof.
  rewrite (measurePhase_powerFactor analogRead voltagePin currentPin).
  destruct (Rgt_dec _ 0); [apply abs_constrain_range | lra].
Qed.

Lemma Rabs_le_bounds (a b : R) : Rabs a <= b -> - b <= a <= b.
Proof. unfold Rabs. destruct (Rcase_abs a); lra. Qed.

(** ** In-phase waveforms *)

Lemma nearestCode_close (x : R) : Rabs (IZR (nearestCode x) - x) <= / 2.
Proof.
  unfold nearestCode. destruct (archimed (x - / 2)) as (H1 & H2).
  replace (up (x - / 2) - 1 + 1)%Z with (up (x - / 2)) by lia.
  apply Rabs_le. lra.
Qed.

Lemma codeOfVolts_close (v : R) :
  Rabs (voltsOf (codeOfVolts v) - v) <= HALF_CODE_VOLTS.
Proof.
  unfold codeOfVolts, voltsOf, HALF_CODE_VOLTS.
  pose proof (nearestCode_close ((v + ADC_VREF / 2) / ADC_VREF * ADC_MAX))
    as H.
  revert H. generalize (nearestCode ((v + ADC_VREF / 2) / ADC_VREF * ADC_MAX)).
  intros c H. unfold ADC_VREF, ADC_MAX in *.
  apply Rabs_le_bounds in H. apply Rabs_le. lra.
Qed.

Lemma codeOfAmps_close (i : R) :
  Rabs (ampsOf (codeOfAmps i) - i) <= HALF_CODE_AMPS.
Proof.
  unfold codeOfAmps, ampsOf, HALF_CODE_AMPS.
  pose proof (nearestCode_close
                ((i * ACS712_SENSITIVITY + ACS712_OFFSET) / ADC_VREF * ADC_MAX))
    as H.
  revert H.
  generalize (nearestCode
                ((i * ACS712_SENSITIVITY + ACS712_OFFSET) / ADC_VREF * ADC_MAX)).
  intros c H. unfold ACS712_OFFSET, ACS712_SENSITIVITY, ADC_VREF, ADC_MAX in *.
  apply Rabs_le_bounds in H. apply Rabs_le. lra.
Qed.

Lemma sumFirst_residual (n : nat) (v c : nat -> R) (q : R) :
  sumFirst n (fun k => (c k - q * v k) * (c k - q * v k))
  = sumFirst n (fun k => c k * c k)
    - 2 * q * sumFirst n (fun k => v k * c k)
    + q * q * sumFirst n (fun k => v k * v k).
Proof. induction n as [|n IH]; simpl; [|rewrite IH]; ring. Qed.

Lemma mean_residual (v c : nat -> R) (q : R) :
  mean (fun k => (c k - q * v k) * (c k - q * v k))
  = mean (fun k => c k * c k) - 2 * q * mean (fun k => v k * c k)
    + q * q * mean (fun k => v k * v k).
Proof. unfold mean. rewrite sumFirst_residual. unfold Rdiv. ring. Qed.

Lemma mean_at_least_one_term (f : nat -> R) (k : nat) :
  (forall j, 0 <= f j) -> (k < Z.to_nat totalSamples)%nat ->
  f k / IZR totalSamples <= mean f.
Proof.
  intros Hf Hk. unfold mean. apply Rmult_le_compat_r.
  - left. apply Rinv_0_lt_compat, totalSamples_pos.
  - revert Hk. generalize (Z.to_nat totalSamples). intros n.
    induction n as [|n IH]; intros Hk; [lia|]. simpl.
    destruct (Nat.eq_dec k n) as [->|Hne].
    + pose proof (sumFirst_nonneg n f (fun j _ => Hf j)). lra.
    + pose proof (Hf n). assert (f k <= sumFirst n f) by (apply IH; lia). lra.
Qed.

(** C8.  For any sample stream whose zero-centred voltage and current values
    are proportional samples [A * w k] and [B * w k] of the same in-phase
    waveform [w] (a sinusoid in particular), read exactly or to within
    [errV] volts and [errI] amperes as the converter quantises them, with no
    other noise, with [currentRms] above the noise floor and ten times above
    the error in the current, [errI + B / A * errV], [measurePhase] returns a
    power factor within 0.01 of 1.0.  With [errV = errI = 0] the values are
    exact samples and nothing is asked beyond the noise floor. *)
Theorem in_phase_power_factor (analogRead : AnalogRead)
    (voltagePin currentPin : Z) (w : nat -> R) (A B errV errI : R) :
  0 < A -> 0 < B -> 0 <= errV -> 0 <= errI ->
  (forall k, (k < Z.to_nat totalSamples)%nat ->
             Rabs (voltsOf (analogRead voltagePin k) - A * w k) <= errV
             /\ Rabs (ampsOf (analogRead currentPin k) - B * w k) <= errI) ->
  currentRms (measurePhase analogRead voltagePin currentPin) > NOISE_FLOOR ->
  errI + B / A * errV
  <= 0.1 * currentRms (measurePhase analogRead voltagePin currentPin) ->
  Rabs (powerFactor (measurePhase analogRead voltagePin currentPin) - 1.0)
  <= 0.01.
Proof.
  unfold NOISE_FLOOR. intros HA HB HeV HeI Hw Hact Herr.
  set (v := fun k => voltsOf (analogRead voltagePin k)).
  set (c := fun k => ampsOf (analogRead currentPin k)).
  set (q := B / A).
  assert (Hq : 0 < q) by (apply Rmult_lt_0_compat;
                          [exact HB | now apply Rinv_0_lt_compat]).
  destruct (measurePhase_active _ _ _ Hact) as (HP & HS & _).
  destruct (measurePhase_rms analogRead voltagePin currentPin) as (HV & HI).
  destruct (power_triangle_exact_aux analogRead voltagePin currentPin)
    as (_ & Hpf & _ & Hpf0).
  pose proof (measurePhase_voltageRms_pos analogRead voltagePin currentPin)
    as HVpos.
  cbn zeta in *.
  change (mean (fun k => voltsOf (analogRead voltagePin k)
                         * voltsOf (analogRead voltagePin k)))
    with (mean (fun k => v k * v k)) in HV.
  change (mean (fun k => ampsOf (analogRead currentPin k)
                         * ampsOf (analogRead currentPin k)))
    with (mean (fun k => c k * c k)) in HI.
  change (mean (fun k => voltsOf (analogRead voltagePin k)
                         * ampsOf (analogRead currentPin k)))
    with (mean (fun k => v k * c k)) in HP.
  set (V2 := mean (fun k => v k * v k)) in *.
  set (I2 := mean (fun k => c k * c k)) in *.
  set (VI := mean (fun k => v k * c k)) in *.
  pose proof calibration_pos as HC.
  assert (HV2 : 0 <= V2) by apply mean_squares_nonneg.
  assert (HI2 : 0 <= I2) by apply mean_squares_nonneg.
  set (sV := sqrt V2) in *. set (sI := sqrt I2) in *.
  assert (HsV : sV * sV = V2) by (apply sqrt_sqrt; exact HV2).
  assert (HsI : sI * sI = I2) by (apply sqrt_sqrt; exact HI2).
  assert (HsVpos : 0 < sV).
  { rewrite HV in HVpos. pose proof (sqrt_pos V2) as H0. fold sV in H0. nra. }
  assert (HsIpos : 0.05 < sI) by (rewrite HI in Hact; lra).
  (* the residual of the current against the scaled voltage *)
  assert (HD : mean (fun k => (c k - q * v k) * (c k - q * v k))
               <= (errI + q * errV) * (errI + q * errV)).
  { apply (mean_bounds _ 0). intros k Hk. split; [exact (Rle_0_sqr _)|].
    destruct (Hw k Hk) as (Hv & Hc). fold (v k) in Hv. fold (c k) in Hc.
    apply Rabs_le_bounds in Hv, Hc.
    assert (E : c k - q * v k = (c k - B * w k) - q * (v k - A * w k)).
    { unfold q. field. lra. }
    rewrite E.
    assert (Hlo : - (errI + q * errV)
                  <= (c k - B * w k) - q * (v k - A * w k)) by nra.
    assert (Hhi : (c k - B * w k) - q * (v k - A * w k)
                  <= errI + q * errV) by nra.
    set (x := (c k - B * w k) - q * (v k - A * w k)) in *.
    set (b := errI + q * errV) in *.
    assert (0 <= (b - x) * (b + x)) by (apply Rmult_le_pos; lra).
    lra. }
  rewrite mean_residual in HD. fold V2 I2 VI in HD.
  (* the power factor as a quotient of the window means *)
  set (pf := powerFactor (measurePhase analogRead voltagePin currentPin)) in *.
  assert (Hpf1 : pf * (sV * sI) = Rabs VI).
  { rewrite HS, HV, HI, HP in Hpf.
    rewrite Rabs_mult, (Rabs_right VOLTAGE_CALIBRATION) in Hpf by lra.
    apply Rmult_eq_reg_r with VOLTAGE_CALIBRATION; [|lra].
    rewrite <- Hpf. ring. }
  assert (Hpf2 : pf * pf * (V2 * I2) = VI * VI).
  { rewrite <- HsV, <- HsI.
    replace (pf * pf * (sV * sV * (sI * sI)))
      with ((pf * (sV * sI)) * (pf * (sV * sI))) by ring.
    rewrite Hpf1. unfold Rabs. destruct (Rcase_abs VI); ring. }
  assert (Hpf_le1 : pf <= 1).
  { destruct (power_factor_range analogRead voltagePin currentPin). assumption. }
  (* 1 - pf^2 is at most the residual over the mean square of the current *)
  assert (Hkey : V2 * I2 - VI * VI
                 <= V2 * (I2 - 2 * q * VI + q * q * V2)).
  { assert (0 <= (VI - q * V2) * (VI - q * V2)) by exact (Rle_0_sqr _). nra. }
  assert (Hbound : (errI + q * errV) * (errI + q * errV) <= 0.01 * I2).
  { fold q in Herr. rewrite HI in Herr. fold sI in Herr.
    assert (0 <= errI + q * errV) by nra. rewrite <- HsI. nra. }
  assert (HV2pos : 0 < V2) by nra.
  assert (HI2pos : 0 < I2) by nra.
  assert (Hsq : 0.99 <= pf * pf).
  { assert (H1 : V2 * I2 * (1 - pf * pf) <= V2 * (0.01 * I2)).
    { replace (V2 * I2 * (1 - pf * pf))
        with (V2 * I2 - pf * pf * (V2 * I2)) by ring.
      rewrite Hpf2. apply Rle_trans with (1 := Hkey).
      apply Rmult_le_compat_l; lra. }
    assert (H2 : 0 < V2 * I2) by now apply Rmult_lt_0_compat.
    apply Rnot_lt_le. intros Hlt.
    assert (V2 * I2 * 0.01 < V2 * I2 * (1 - pf * pf))
      by (apply Rmult_lt_compat_l; lra).
    nra. }
  apply Rabs_le. split; [|lra]. nra.
Qed.

Lemma mainsWave_peak : mainsWave 50%nat = 1.
Proof.
  unfold mainsWave, SAMPLES_PER_CYCLE.
  replace (2 * PI * INR 50 / 200) with (PI / 2).
  - apply sin_PI2.
  - rewrite INR_IZR_INZ. change (IZR (Z.of_nat 50)) with 50. field.
Qed.

(** The scenario of 230 V and 10 A: a sinusoid of 1.388 V at the voltage pin
    and of 14.142 A, 200 samples to the cycle, each sample read as the
    nearest code. *)
Lemma in_phase_power_factor_witness :
  (0 < 1.388 /\ 0 < 14.142 /\ 0 <= HALF_CODE_VOLTS /\ 0 <= HALF_CODE_AMPS)
  /\ (forall k, (k < Z.to_nat totalSamples)%nat ->
        Rabs (voltsOf (mainsRead 1.388 14.142 34 34%Z k)
              - 1.388 * mainsWave k) <= HALF_CODE_VOLTS
        /\ Rabs (ampsOf (mainsRead 1.388 14.142 34 35%Z k)
                 - 14.142 * mainsWave k) <= HALF_CODE_AMPS)
  /\ currentRms (measurePhase (mainsRead 1.388 14.142 34) 34 35) > NOISE_FLOOR
  /\ HALF_CODE_AMPS + 14.142 / 1.388 * HALF_CODE_VOLTS
     <= 0.1 * currentRms (measurePhase (mainsRead 1.388 14.142 34) 34 35)
  /\ Rabs (powerFactor (measurePhase (mainsRead 1.388 14.142 34) 34 35) - 1.0)
     <= 0.01.
Proof.
  assert (HhV : HALF_CODE_VOLTS = 3.3 / 8190)
    by (unfold HALF_CODE_VOLTS, ADC_VREF, ADC_MAX; lra).
  assert (HhI : HALF_CODE_AMPS = 25 / 4095)
    by (unfold HALF_CODE_AMPS, ADC_VREF, ADC_MAX, ACS712_SENSITIVITY; lra).
  assert (Hw : forall k, (k < Z.to_nat totalSamples)%nat ->
        Rabs (voltsOf (mainsRead 1.388 14.142 34 34%Z k)
              - 1.388 * mainsWave k) <= HALF_CODE_VOLTS
        /\ Rabs (ampsOf (mainsRead 1.388 14.142 34 35%Z k)
                 - 14.142 * mainsWave k) <= HALF_CODE_AMPS).
  { intros k _. unfold mainsRead. cbn [Z.eqb Pos.eqb]. split.
    - apply codeOfVolts_close.
    - apply codeOfAmps_close. }
  assert (Hrms : 0.44
                 <= currentRms (measurePhase (mainsRead 1.388 14.142 34) 34 35)).
  { rewrite (proj2 (measurePhase_rms (mainsRead 1.388 14.142 34) 34 35)).
    rewrite <- (sqrt_Rsqr 0.44) by lra. apply sqrt_le_1_alt.
    eapply Rle_trans;
      [|apply (mean_at_least_one_term
                 (fun k => ampsOf (mainsRead 1.388 14.142 34 35%Z k)
                           * ampsOf (mainsRead 1.388 14.142 34 35%Z k)) 50%nat)].
    - destruct (Hw 50%nat) as (_ & Hc).
      { unfold totalSamples, SAMPLES_PER_CYCLE, NUM_CYCLES. lia. }
      rewrite mainsWave_peak, HhI in Hc. apply Rabs_le_bounds in Hc.
      rewrite totalSamples_value. unfold Rsqr.
      set (x := ampsOf (mainsRead 1.388 14.142 34 35%Z 50%nat)) in *.
      assert (14.13 <= x) by lra. nra.
    - intros j. exact (Rle_0_sqr _).
    - unfold totalSamples, SAMPLES_PER_CYCLE, NUM_CYCLES. lia. }
  assert (Hact : currentRms (measurePhase (mainsRead 1.388 14.142 34) 34 35)
                 > NOISE_FLOOR) by (unfold NOISE_FLOOR; lra).
  assert (Herr : HALF_CODE_AMPS + 14.142 / 1.388 * HALF_CODE_VOLTS
                 <= 0.1 * currentRms
                            (measurePhase (mainsRead 1.388 14.142 34) 34 35))
    by (rewrite HhV, HhI; lra).
  split; [rewrite HhV, HhI; lra|]. split; [exact Hw|].
  split; [exact Hact|]. split; [exact Herr|].
  apply (in_phase_power_factor (mainsRead 1.388 14.142 34) 34 35 mainsWave
           1.388 14.142 HALF_CODE_VOLTS HALF_CODE_AMPS);
    try (rewrite ?HhV, ?HhI; lra); assumption.
Defined.

(** * Further properties of the aggregation *)

(** ** One pass of loop over measured phases *)

(** With the current channel of all three phases at or below the noise floor,
    a pass of [loop] reports zero totals, an overall power factor of 0, and
    raises no alert. *)
Theorem idle_system_snapshot (reads : nat -> AnalogRead) :
  (forall i, (i < 3)%nat ->
             currentRms (measurePhase (reads i) (nth i VOLTAGE_PINS 0%Z)
                                      (nth i CURRENT_PINS 0%Z))
             <= NOISE_FLOOR) ->
  totalReal (loop reads) = 0
  /\ totalApparent (loop reads) = 0
  /\ totalReactive (loop reads) = 0
  /\ overallPF (loop reads) = 0
  /\ alertRaised (loop reads) = false.
Proof.
  unfold NOISE_FLOOR. intros Hidle.
  rewrite loop_three_phases.
  pose proof (measurePhase_idle (reads 0%nat) 34 35 (Hidle 0%nat ltac:(lia)))
    as (P0 & S0 & _ & F0).
  pose proof (measurePhase_idle (reads 1%nat) 32 33 (Hidle 1%nat ltac:(lia)))
    as (P1 & S1 & _ & F1).
  pose proof (measurePhase_idle (reads 2%nat) 25 26 (Hidle 2%nat ltac:(lia)))
    as (P2 & S2 & _ & F2).
  revert P0 S0 F0 P1 S1 F1 P2 S2 F2.
  generalize (measurePhase (reads 0%nat) 34 35).
  generalize (measurePhase (reads 1%nat) 32 33).
  generalize (measurePhase (reads 2%nat) 25 26).
  intros m2 m1 m0 P0 S0 F0 P1 S1 F1 P2 S2 F2.
  destruct (aggregate_fields PF_THRESHOLD [m0; m1; m2])
    as (HP & HS & HA & Hpf & HQ).
  destruct (aggregate3_totals PF_THRESHOLD m0 m1 m2) as (TP & TS).
  rewrite HP, HS, HQ, Hpf, TP, TS, P0, P1, P2, S0, S1, S2.
  destruct (Rgt_dec (0 + 0 + 0) 0); [lra|].
  repeat split; try ring.
  apply not_true_is_false. rewrite HA, fold_alert, !Exists_cons, Exists_nil.
  unfold lowPF, PF_EPSILON. cbn [anyLowPF initTotals]. rewrite F0, F1, F2.
  intros [H|[H|[H|[H|H]]]]; try discriminate; try lra; contradiction.
Qed.

Lemma idle_system_snapshot_witness :
  (forall i, (i < 3)%nat ->
             currentRms (measurePhase (idleReads i) (nth i VOLTAGE_PINS 0%Z)
                                      (nth i CURRENT_PINS 0%Z))
             <= NOISE_FLOOR)
  /\ totalReal (loop idleReads) = 0
  /\ totalApparent (loop idleReads) = 0
  /\ totalReactive (loop idleReads) = 0
  /\ overallPF (loop idleReads) = 0
  /\ alertRaised (loop idleReads) = false.
Proof.
  assert (H : forall i, (i < 3)%nat ->
             currentRms (measurePhase (idleReads i) (nth i VOLTAGE_PINS 0%Z)
                                      (nth i CURRENT_PINS 0%Z))
             <= NOISE_FLOOR).
  { intros i Hi.
    assert (Hc : i = 0%nat \/ i = 1%nat \/ i = 2%nat) by lia.
    destruct Hc as [-> | [-> | ->]];
      unfold idleReads, VOLTAGE_PINS, CURRENT_PINS; cbn [nth].
    - rewrite (proj2 (constant_stream_rms (constantRead 4095 2048 34) 34 35
                        4095 2048 (fun _ => eq_refl) (fun _ => eq_refl))).
      exact ampsOf_idle.
    - rewrite (proj2 (constant_stream_rms (constantRead 4095 2048 32) 32 33
                        4095 2048 (fun _ => eq_refl) (fun _ => eq_refl))).
      exact ampsOf_idle.
    - rewrite (proj2 (constant_stream_rms (constantRead 4095 2048 25) 25 26
                        4095 2048 (fun _ => eq_refl) (fun _ => eq_refl))).
      exact ampsOf_idle. }
  split; [exact H|]. exact (idle_system_snapshot idleReads H).
Defined.

(** * The sampling schedule *)

Lemma ulong_range (z : Z) : (0 <= ulong z < ULONG_MODULUS)%Z.
Proof. unfold ulong, ULONG_MODULUS. apply Z.mod_pos_bound. lia. Qed.

Lemma ulong_small (z : Z) : (0 <= z < ULONG_MODULUS)%Z -> ulong z = z.
Proof. intros H. unfold ulong. now apply Z.mod_small. Qed.

Lemma sample_offset (i : nat) :
  Qfloor (inject_Z (Z.of_nat i) * sampleInterval)%Q = (100 * Z.of_nat i)%Z.
Proof.
  assert (Hint : (sampleInterval == inject_Z 100)%Q) by (vm_compute; reflexivity).
  assert (E : (inject_Z (Z.of_nat i) * sampleInterval
               == inject_Z (100 * Z.of_nat i))%Q).
  { rewrite Hint, <- inject_Z_mult. now rewrite Z.mul_comm. }
  rewrite E. apply Qfloor_Z.
Qed.

Lemma targetTime_ulong (sampleStartTime : Z) (i : nat) :
  targetTime sampleStartTime i = ulong (sampleStartTime + 100 * Z.of_nat i).
Proof.
  unfold targetTime. rewrite sample_offset.
  unfold ulong. now rewrite Zplus_mod_idemp_r.
Qed.

(** The sampling loop aims pass [i] at [100 * i] microseconds after its
    start (10 kHz, 200 samples to the 50 Hz cycle), counted modulo [2^32]:
    consecutive targets are 100 microseconds apart, and the last one lies
    99900 microseconds after the first. *)
Theorem sampling_schedule (sampleStartTime : Z) (i : nat) :
  targetTime sampleStartTime i
  = ulong (sampleStartTime + 100 * Z.of_nat i)
  /\ ulong (targetTime sampleStartTime (S i) - targetTime sampleStartTime i)
     = 100%Z
  /\ ulong (targetTime sampleStartTime (Z.to_nat totalSamples - 1)
            - targetTime sampleStartTime 0)
     = 99900%Z.
Proof.
  assert (E : forall j, targetTime sampleStartTime j
                        = ulong (sampleStartTime + 100 * Z.of_nat j))
    by (intros j; apply targetTime_ulong).
  split; [apply E|]. rewrite !E. unfold ulong, ULONG_MODULUS.
  split.
  - rewrite <- Zminus_mod.
    replace (sampleStartTime + 100 * Z.of_nat (S i)
             - (sampleStartTime + 100 * Z.of_nat i))%Z with 100%Z by lia.
    reflexivity.
  - rewrite <- Zminus_mod.
    replace (Z.of_nat (Z.to_nat totalSamples - 1)) with 999%Z
      by (unfold totalSamples, SAMPLES_PER_CYCLE, NUM_CYCLES; lia).
    replace (sampleStartTime + 100 * 999
             - (sampleStartTime + 100 * Z.of_nat 0))%Z with 99900%Z by lia.
    reflexivity.
Qed.

Lemma targetTime_no_rollover (sampleStartTime : Z) (i : nat) :
  (0 <= sampleStartTime)%Z ->
  (sampleStartTime + 100 * Z.of_nat i < ULONG_MODULUS)%Z ->
  targetTime sampleStartTime i = (sampleStartTime + 100 * Z.of_nat i)%Z.
Proof.
  intros H0 H1. rewrite targetTime_ulong.
  apply ulong_small. lia.
Qed.

(** ** The busy wait *)

Lemma busyWait_released (micros : Micros) (fuel calls calls' : nat)
    (target : Z) :
  busyWait micros fuel calls target = Some calls' ->
  (calls < calls')%nat
  /\ (target <= micros (pred calls'))%Z
  /\ (forall k, (calls <= k < pred calls')%nat -> (micros k < target)%Z).
Proof.
  revert calls. induction fuel as [|fuel IH]; intros calls H; cbn in H.
  - discriminate.
  - destruct (micros calls <? target)%Z eqn:E.
    + destruct (IH _ H) as (Hlt & Hge & Hbefore).
      split; [lia|]. split; [exact Hge|].
      intros k Hk. destruct (Nat.eq_dec k calls) as [->|Hne].
      * now apply Z.ltb_lt.
      * apply Hbefore. lia.
    + injection H as <-. cbn [pred]. apply Z.ltb_ge in E.
      split; [lia|]. split; [exact E|]. intros k Hk. lia.
Qed.

Lemma busyWait_returns (micros : Micros) (fuel calls k : nat) (target : Z) :
  (calls <= k)%nat -> (target <= micros k)%Z -> (k - calls < fuel)%nat ->
  exists calls', busyWait micros fuel calls target = Some calls'.
Proof.
  revert calls. induction fuel as [|fuel IH]; intros calls Hk Hreach Hfuel.
  - lia.
  - cbn. destruct (micros calls <? target)%Z eqn:E.
    + apply Z.ltb_lt in E.
      assert (calls <> k) by (intros ->; lia).
      apply IH; [lia | exact Hreach | lia].
    + eauto.
Qed.

Section PacedSampling.

Variable micros : Micros.
Variable analogRead : AnalogRead.
Variables voltagePin currentPin : Z.
Variables fuel reach : nat.

Hypothesis clock_monotone : forall k, (micros k <= micros (S k))%Z.
Hypothesis enough_fuel : (reach < fuel)%nat.

Lemma clock_monotone_le (j k : nat) :
  (j <= k)%nat -> (micros j <= micros k)%Z.
Proof.
  induction 1 as [|k _ IH]; [lia|].
  pose proof (clock_monotone k). lia.
Qed.

Lemma timedLoop_paced (start : Z) (n i calls : nat) (s : Sums) :
  (forall j, (i <= j < i + n)%nat -> (targetTime start j <= micros reach)%Z) ->
  exists released,
    timedLoop micros fuel analogRead voltagePin currentPin start n i calls s
    = Some (sampleLoop analogRead voltagePin currentPin n i s, released)
    /\ List.length released = n
    /\ (forall j, (j < n)%nat ->
                  (targetTime start (i + j) <= nth j released 0)%Z).
Proof.
  revert i calls s. induction n as [|n IH]; intros i calls s Hreach.
  - exists []. cbn. split; [reflexivity|]. split; [reflexivity|]. lia.
  - cbn [timedLoop sampleLoop].
    destruct (busyWait_returns micros fuel calls (Nat.max calls reach)
                (targetTime start i)) as (calls' & Hwait).
    + lia.
    + apply Z.le_trans with (micros reach); [apply Hreach; lia|].
      apply clock_monotone_le. lia.
    + lia.
    + rewrite Hwait.
      destruct (busyWait_released _ _ _ _ _ Hwait) as (_ & Hge & _).
      destruct (IH (S i) calls'
                   (sampleStep analogRead voltagePin currentPin s i))
        as (released & Hloop & Hlen & Hpaced).
      { intros j Hj. apply Hreach. lia. }
      rewrite Hloop. exists (micros (pred calls') :: released).
      split; [reflexivity|]. split; [cbn; lia|].
      intros [|j] Hj; cbn [nth].
      * now rewrite Nat.add_0_r.
      * replace (i + S j)%nat with (S i + j)%nat by lia.
        apply Hpaced. lia.
Qed.

End PacedSampling.

(** Pacing.  Under a clock that never runs backwards, does not roll over
    inside the window and reaches the last target after [reach] calls, the
    timed [measurePhase] finishes (given fuel for [reach] polls), returns the
    metrics of [measurePhase], and takes sample [i] no earlier than
    [100 * i] microseconds after the start, for each of the [totalSamples]
    samples. *)
Theorem paced_sampling (micros : Micros) (analogRead : AnalogRead)
    (voltagePin currentPin : Z) (fuel reach : nat) :
  (forall k, (micros k <= micros (S k))%Z) ->
  (0 <= micros 0%nat)%Z ->
  (micros 0%nat + 99900 < ULONG_MODULUS)%Z ->
  (micros 0%nat + 99900 <= micros reach)%Z ->
  (reach < fuel)%nat ->
  exists released,
    measurePhaseTimed micros fuel analogRead voltagePin currentPin
    = Some (measurePhase analogRead voltagePin currentPin, released)
    /\ List.length released = Z.to_nat totalSamples
    /\ (forall i, (i < Z.to_nat totalSamples)%nat ->
                  (micros 0%nat + 100 * Z.of_nat i <= nth i released 0)%Z).
Proof.
  intros Hmono H0 Hroll Hreach Hfuel.
  assert (HN : Z.of_nat (Z.to_nat totalSamples) = 1000%Z)
    by (unfold totalSamples, SAMPLES_PER_CYCLE, NUM_CYCLES; lia).
  destruct (timedLoop_paced micros analogRead voltagePin currentPin fuel reach
              Hmono Hfuel (micros 0%nat) (Z.to_nat totalSamples) 0 1 initSums)
    as (released & Hloop & Hlen & Hpaced).
  { intros j Hj. rewrite targetTime_no_rollover by lia. lia. }
  exists released. unfold measurePhaseTimed, measurePhase. cbn zeta.
  rewrite Hloop. split; [reflexivity|]. split; [exact Hlen|].
  intros i Hi. specialize (Hpaced i Hi). cbn [Nat.add] in Hpaced.
  rewrite targetTime_no_rollover in Hpaced by lia. exact Hpaced.
Qed.

(** A clock that advances 50 microseconds from one call to the next. *)
Lemma paced_sampling_witness :
  let micros : Micros := fun k => Z.min (50 * Z.of_nat k) 4294967295 in
  exists released,
    measurePhaseTimed micros 2000 (alternatingRead 4095 0) 34 35
    = Some (measurePhase (alternatingRead 4095 0) 34 35, released)
    /\ List.length released = Z.to_nat totalSamples
    /\ (forall i, (i < Z.to_nat totalSamples)%nat ->
                  (micros 0%nat + 100 * Z.of_nat i <= nth i released 0)%Z).
Proof.
  cbn zeta.
  apply (paced_sampling (fun k => Z.min (50 * Z.of_nat k) 4294967295)
           (alternatingRead 4095 0) 34 35 2000 1998).
  - intros k. lia.
  - cbn. lia.
  - unfold ULONG_MODULUS. cbn. lia.
  - cbn. lia.
  - lia.
Defined.

(** Rollover.  When the target of a pass lies beyond the rollover of
    [micros()] while the clock has not rolled over yet, the comparison
    [micros() < targetTime] fails at once: the pass does not wait for its
    100-microsecond slot and is released at its first poll. *)
Theorem rollover_ends_the_wait (micros : Micros) (fuel calls : nat)
    (sampleStartTime : Z) (i : nat) :
  (0 <= sampleStartTime < ULONG_MODULUS)%Z ->
  (i < Z.to_nat totalSamples)%nat ->
  (ULONG_MODULUS <= sampleStartTime + 100 * Z.of_nat i)%Z ->
  (sampleStartTime <= micros calls)%Z ->
  targetTime sampleStartTime i
  = (sampleStartTime + 100 * Z.of_nat i - ULONG_MODULUS)%Z
  /\ busyWait micros (S fuel) calls (targetTime sampleStartTime i)
     = Some (S calls).
Proof.
  intros Hstart Hi Hroll Hclock.
  assert (HN : Z.of_nat (Z.to_nat totalSamples) = 1000%Z)
    by (unfold totalSamples, SAMPLES_PER_CYCLE, NUM_CYCLES; lia).
  assert (E : targetTime sampleStartTime i
              = (sampleStartTime + 100 * Z.of_nat i - ULONG_MODULUS)%Z).
  { rewrite targetTime_ulong. unfold ulong.
    symmetry. apply Z.mod_unique_pos with (q := 1%Z);
      unfold ULONG_MODULUS in *; lia. }
  split; [exact E|]. cbn [busyWait]. rewrite E.
  destruct (micros calls <? _)%Z eqn:C; [|reflexivity].
  apply Z.ltb_lt in C. unfold ULONG_MODULUS in *. lia.
Qed.

(** A window started 50 ms before the rollover: pass 600 is aimed 10 ms
    after it and is released while the clock still reads 40 ms before. *)
Lemma rollover_ends_the_wait_witness :
  targetTime 4294917296 600 = 10000%Z
  /\ busyWait (fun _ => 4294927296%Z) 1 0 (targetTime 4294917296 600)
     = Some 1%nat.
Proof.
  apply (rollover_ends_the_wait (fun _ => 4294927296%Z) 0 0 4294917296 600).
  - unfold ULONG_MODULUS. lia.
  - unfold totalSamples, SAMPLES_PER_CYCLE, NUM_CYCLES. lia.
  - unfold ULONG_MODULUS. lia.
  - lia.
Defined.

(** * setup and loop *)

(** ** Waiting for the link *)

Lemma waitForWiFi_spec (connected : nat -> bool) (remaining attempts : nat) :
  let final := fst (waitForWiFi connected remaining attempts) in
  let events := snd (waitForWiFi connected remaining attempts) in
  (attempts <= final <= attempts + remaining)%nat
  /\ events = repeat (Delay 500) (final - attempts)
  /\ (forall k, (attempts <= k < final)%nat -> connected k = false)
  /\ (connected final = true \/ final = (attempts + remaining)%nat).
Proof.
  revert attempts. induction remaining as [|remaining IH]; intros attempts;
    cbn [waitForWiFi]; destruct (connected attempts) eqn:E; cbn [fst snd].
  - rewrite Nat.sub_diag. repeat split; try lia; auto.
  - rewrite Nat.sub_diag. repeat split; try lia; auto.
  - rewrite Nat.sub_diag. repeat split; try lia; auto.
  - specialize (IH (S attempts)). cbn zeta in IH.
    destruct (waitForWiFi connected remaining (S attempts)) as [final events].
    cbn [fst snd] in *. destruct IH as (Hrange & Hev & Hbefore & Hend).
    split; [lia|]. split; [|split].
    + replace (final - attempts)%nat with (S (final - S attempts)) by lia.
      cbn [repeat]. now rewrite Hev.
    + intros k Hk. destruct (Nat.eq_dec k attempts) as [->|Hne];
        [exact E | apply Hbefore; lia].
    + destruct Hend as [H|H]; [now left | right; lia].
Qed.

Lemma totalDelay_app (a b : list Event) :
  totalDelay (a ++ b) = (totalDelay a + totalDelay b)%Z.
Proof.
  induction a as [|e a IH]; [reflexivity|].
  cbn [app]. unfold totalDelay in *. cbn [fold_right].
  destruct e; rewrite IH; lia.
Qed.

Lemma totalDelay_repeat (ms : Z) (n : nat) :
  totalDelay (repeat (Delay ms) n) = (ms * Z.of_nat n)%Z.
Proof.
  induction n as [|n IH]; [cbn; lia|].
  cbn [repeat]. unfold totalDelay in *. cbn [fold_right]. rewrite IH. lia.
Qed.

(** [setup] gives the link at most 30 waits of 500 ms: it stops waiting at
    the first call of [WiFi.status()] that answers connected, the first 31
    calls counted, and after 30 waits at the latest.  With the three
    confirmation flashes of a link that is up, [setup] spends at most
    15.9 s in [delay]. *)
Theorem setup_waits_at_most_30 (connected : nat -> bool) :
  let attempts := fst (waitForWiFi connected 30 0) in
  (attempts <= 30)%nat
  /\ (forall k, (k < attempts)%nat -> connected k = false)
  /\ (connected attempts = true \/ attempts = 30%nat)
  /\ totalDelay (setup connected)
     = (500 * Z.of_nat attempts
        + (if connected (S attempts) then 900 else 0))%Z
  /\ (totalDelay (setup connected) <= 15900)%Z.
Proof.
  cbn zeta.
  destruct (waitForWiFi_spec connected 30 0) as (Hrange & Hev & Hbefore & Hend).
  assert (Hdelay : totalDelay (setup connected)
                   = (500 * Z.of_nat (fst (waitForWiFi connected 30 0))
                      + (if connected (S (fst (waitForWiFi connected 30 0)))
                         then 900 else 0))%Z).
  { unfold setup.
    destruct (waitForWiFi connected 30 0) as [attempts events].
    cbn [fst snd] in *. rewrite Nat.sub_0_r in Hev. subst events.
    rewrite !totalDelay_app, totalDelay_repeat.
    assert (E1 : totalDelay [PinMode LED_PIN true; DigitalWrite LED_PIN false]
                 = 0%Z) by reflexivity.
    assert (E2 : totalDelay
                   (flat_map
                      (fun i => [PinMode (nth i VOLTAGE_PINS 0%Z) false;
                                 PinMode (nth i CURRENT_PINS 0%Z) false])
                      (seq 0 (Z.to_nat NUM_PHASES))) = 0%Z) by reflexivity.
    assert (E3 : totalDelay [WiFiBegin] = 0%Z) by reflexivity.
    assert (E4 : totalDelay (flashLed 3 150) = 900%Z) by reflexivity.
    assert (E5 : totalDelay [] = 0%Z) by reflexivity.
    rewrite E1, E2, E3.
    destruct (connected (S attempts)); [rewrite E4 | rewrite E5]; lia. }
  split; [lia|]. split; [intros k Hk; apply Hbefore; lia|].
  split; [destruct Hend as [H|H]; [now left | right; lia]|].
  split; [exact Hdelay|]. rewrite Hdelay.
  clear Hdelay Hev Hbefore Hend.
  set (attempts := fst (waitForWiFi connected 30 0)) in *.
  destruct (connected (S attempts)); lia.
Qed.

(** ** The LED *)

Lemma ledAfter_app (before : bool) (a b : list Event) :
  ledAfter before (a ++ b) = ledAfter (ledAfter before a) b.
Proof. unfold ledAfter. apply fold_left_app. Qed.

Lemma ledAfter_flashLed (before : bool) (n : nat) (ms : Z) :
  ledAfter before (flashLed n ms) = match n with O => before | S _ => false end.
Proof.
  revert before. induction n as [|n IH]; intros before; [reflexivity|].
  cbn [flashLed]. rewrite ledAfter_app, IH.
  destruct n; reflexivity.
Qed.

Lemma ledAfter_repeat_delay (before : bool) (ms : Z) (n : nat) :
  ledAfter before (repeat (Delay ms) n) = before.
Proof. induction n as [|n IH]; [reflexivity|]. cbn [repeat]. exact IH. Qed.

Lemma ledAfter_setup (before : bool) (connected : nat -> bool) :
  ledAfter before (setup connected) = false.
Proof.
  unfold setup.
  destruct (waitForWiFi_spec connected 30 0) as (_ & Hev & _).
  destruct (waitForWiFi connected 30 0) as [attempts events].
  cbn [fst snd] in Hev. subst events.
  rewrite !ledAfter_app, ledAfter_repeat_delay.
  destruct (connected (S attempts)); [now rewrite ledAfter_flashLed|].
  reflexivity.
Qed.

Lemma ledAfter_loopPass (formatFloat : R -> nat -> string)
    (lastSendTime : Z) (inp : PassInput) :
  ledAfter false (snd (loopPass formatFloat lastSendTime inp)) = false.
Proof.
  unfold loopPass. destruct (negb (wifiConnected inp)); [reflexivity|].
  destruct (_ <? _)%Z; [reflexivity|]. cbn [snd].
  rewrite ledAfter_app. destruct (alertRaised _); reflexivity.
Qed.

Lemma ledAfter_loopPasses (formatFloat : R -> nat -> string)
    (inputs : list PassInput) (lastSendTime : Z) :
  ledAfter false (snd (loopPasses formatFloat lastSendTime inputs)) = false.
Proof.
  revert lastSendTime. induction inputs as [|inp rest IH];
    intros lastSendTime; [reflexivity|].
  cbn [loopPasses].
  pose proof (ledAfter_loopPass formatFloat lastSendTime inp) as Hpass.
  destruct (loopPass formatFloat lastSendTime inp) as [t events].
  specialize (IH t). destruct (loopPasses formatFloat t rest) as [t' events'].
  cbn [snd] in *. now rewrite ledAfter_app, Hpass.
Qed.

(** Whenever [setup] or [loop] returns, the LED is off: after [setup] and
    any number of passes of [loop], whatever the link, the clock and the
    readings were, and whatever level the LED had at power-up. *)
Theorem led_off_between_passes (formatFloat : R -> nat -> string)
    (powerUp : bool) (connected : nat -> bool) (inputs : list PassInput) :
  ledAfter powerUp (run formatFloat connected inputs) = false.
Proof.
  unfold run. rewrite ledAfter_app, ledAfter_setup.
  apply ledAfter_loopPasses.
Qed.

(** ** The send interval *)

Lemma posts_app (a b : list Event) : posts (a ++ b) = (posts a ++ posts b)%list.
Proof. unfold posts. apply flat_map_app. Qed.

Lemma posts_flashLed (n : nat) (ms : Z) : posts (flashLed n ms) = [].
Proof. induction n as [|n IH]; [reflexivity|]. cbn [flashLed]. exact IH. Qed.

(** What a pass posts, and what it leaves in [lastSendTime]. *)
Lemma loopPass_cases (formatFloat : R -> nat -> string) (lastSendTime : Z)
    (inp : PassInput) :
  let s := loop (passReads inp) in
  let sent :=
    wifiConnected inp
    && negb (ulong (millisNow inp - lastSendTime) <? SEND_INTERVAL)%Z in
  posts (snd (loopPass formatFloat lastSendTime inp))
  = (if sent
     then [payload formatFloat (phases s) (overallPF s) (totalReal s)
                   (totalApparent s) (totalReactive s)]
     else [])
  /\ fst (loopPass formatFloat lastSendTime inp)
     = (if sent then millisNow inp else lastSendTime).
Proof.
  cbn zeta. unfold loopPass.
  destruct (wifiConnected inp); cbn [negb andb]; [|split; reflexivity].
  destruct (_ <? _)%Z; cbn [negb fst snd]; [split; reflexivity|].
  split; [|reflexivity].
  rewrite posts_app.
  destruct (alertRaised _); [rewrite posts_flashLed|]; reflexivity.
Qed.

(** The test of the send interval survives the rollover of [millis()].  With
    the link up, a pass that starts [elapsed] milliseconds (fewer than
    [2^32]) after the pass that last sent measures and posts, once, exactly
    when [elapsed] is at least 2000, wherever the counter rolled over in
    between; it then records its own start as the time of the last send, and
    otherwise leaves the record alone. *)
Theorem send_interval_across_rollover (formatFloat : R -> nat -> string)
    (lastSendTime elapsed : Z) (inp : PassInput) :
  (0 <= lastSendTime < ULONG_MODULUS)%Z ->
  (0 <= elapsed < ULONG_MODULUS)%Z ->
  wifiConnected inp = true ->
  millisNow inp = ulong (lastSendTime + elapsed) ->
  (List.length (posts (snd (loopPass formatFloat lastSendTime inp)))
   = if (elapsed <? SEND_INTERVAL)%Z then 0%nat else 1%nat)
  /\ fst (loopPass formatFloat lastSendTime inp)
     = (if (elapsed <? SEND_INTERVAL)%Z then lastSendTime else millisNow inp).
Proof.
  intros Hlast Helapsed Hup Hnow.
  destruct (loopPass_cases formatFloat lastSendTime inp) as (Hposts & Hfst).
  cbn zeta in Hposts, Hfst. rewrite Hposts, Hfst, Hup. cbn [andb].
  assert (E : ulong (millisNow inp - lastSendTime) = elapsed).
  { rewrite Hnow. unfold ulong. rewrite Zminus_mod_idemp_l.
    replace (lastSendTime + elapsed - lastSendTime)%Z with elapsed by lia.
    now apply Z.mod_small. }
  rewrite E. destruct (elapsed <? SEND_INTERVAL)%Z; split; reflexivity.
Qed.

(** The last send 500 ms before the rollover, the pass 2000 ms after it. *)
Lemma send_interval_across_rollover_witness :
  (List.length (posts (snd (loopPass formatZero 4294966796 (idlePass 2000))))
   = if (2500 <? SEND_INTERVAL)%Z then 0%nat else 1%nat)
  /\ fst (loopPass formatZero 4294966796 (idlePass 2000))
     = (if (2500 <? SEND_INTERVAL)%Z then 4294966796%Z
        else millisNow (idlePass 2000)).
Proof.
  apply (send_interval_across_rollover formatZero 4294966796 2500
           (idlePass 2000)).
  - unfold ULONG_MODULUS. lia.
  - unfold ULONG_MODULUS. lia.
  - reflexivity.
  - reflexivity.
Defined.

Lemma sendTimes_spaced (formatFloat : R -> nat -> string)
    (passes : list (Z * PassInput)) (lastTime : Z) :
  (forall time inp, In (time, inp) passes -> millisNow inp = ulong time) ->
  StronglySorted Z.le (lastTime :: map fst passes) ->
  StronglySorted (fun a b => (a + SEND_INTERVAL <= b)%Z)
                 (sendTimes formatFloat (ulong lastTime) passes)
  /\ Forall (fun t => (lastTime + SEND_INTERVAL <= t)%Z)
            (sendTimes formatFloat (ulong lastTime) passes).
Proof.
  revert lastTime. induction passes as [|[time inp] rest IH];
    intros lastTime Hnow Hsorted.
  - cbn. split; constructor.
  - cbn [sendTimes].
    destruct (loopPass_cases formatFloat (ulong lastTime) inp)
      as (Hposts & Hfst). cbn zeta in Hposts, Hfst.
    destruct (loopPass formatFloat (ulong lastTime) inp) as [last' events].
    cbn [fst snd] in Hposts, Hfst. rewrite Hposts, Hfst.
    assert (Hn : millisNow inp = ulong time) by (apply Hnow; now left).
    cbn [map fst] in Hsorted.
    apply StronglySorted_inv in Hsorted. destruct Hsorted as (Hrest & Hall).
    assert (Hle : (lastTime <= time)%Z) by (now inversion Hall).
    assert (Hall' : Forall (Z.le lastTime) (map fst rest))
      by (now inversion Hall).
    assert (Hnow' : forall t i, In (t, i) rest -> millisNow i = ulong t)
      by (intros t i Hin; apply Hnow; now right).
    destruct (wifiConnected inp
              && negb (ulong (millisNow inp - ulong lastTime)
                       <? SEND_INTERVAL)%Z) eqn:Hsent.
    + apply andb_true_iff in Hsent. destruct Hsent as (_ & Hgate).
      apply negb_true_iff, Z.ltb_ge in Hgate.
      assert (Hgap : (lastTime + SEND_INTERVAL <= time)%Z).
      { rewrite Hn in Hgate. unfold ulong in Hgate.
        rewrite <- Zminus_mod in Hgate.
        destruct (Z_lt_le_dec (time - lastTime) SEND_INTERVAL) as [Hlt|Hge];
          [|lia].
        rewrite Z.mod_small in Hgate
          by (unfold ULONG_MODULUS, SEND_INTERVAL in *; lia). lia. }
      rewrite Hn. destruct (IH time Hnow' Hrest) as (Hsp & Hfar).
      split.
      * constructor; [exact Hsp | exact Hfar].
      * constructor; [exact Hgap|].
        eapply Forall_impl; [|exact Hfar]. cbn. intros t Ht.
        unfold SEND_INTERVAL in *. lia.
    + apply (IH lastTime Hnow'). constructor; [|exact Hall'].
      now apply StronglySorted_inv in Hrest.
Qed.

(** The sketch never sends more often than every 2000 ms.  Along any run of
    passes whose start times do not decrease, the passes that post are at
    least [SEND_INTERVAL] apart from one another, and none posts before
    2000 ms; the rollover of [millis()] does not break this. *)
Theorem sends_at_least_interval_apart (formatFloat : R -> nat -> string)
    (passes : list (Z * PassInput)) :
  (forall time inp, In (time, inp) passes -> millisNow inp = ulong time) ->
  StronglySorted Z.le (0%Z :: map fst passes) ->
  StronglySorted (fun a b => (a + SEND_INTERVAL <= b)%Z)
                 (sendTimes formatFloat 0 passes)
  /\ Forall (fun t => (SEND_INTERVAL <= t)%Z) (sendTimes formatFloat 0 passes).
Proof.
  intros Hnow Hsorted.
  destruct (sendTimes_spaced formatFloat passes 0 Hnow Hsorted) as (H1 & H2).
  change (ulong 0) with 0%Z in H1, H2. split; [exact H1|].
  eapply Forall_impl; [|exact H2]. cbn. intros t Ht. lia.
Qed.

(** Passes at 1 s, 2.5 s, 3 s and, past the rollover, at [2^32 + 100] ms. *)
Lemma sends_at_least_interval_apart_witness :
  let passes :=
    [(1000%Z, idlePass 1000); (2500%Z, idlePass 2500);
     (3000%Z, idlePass 3000); (4294967396%Z, idlePass 100)] in
  StronglySorted (fun a b => (a + SEND_INTERVAL <= b)%Z)
                 (sendTimes formatZero 0 passes)
  /\ Forall (fun t => (SEND_INTERVAL <= t)%Z) (sendTimes formatZero 0 passes).
Proof.
  cbn zeta.
  apply (sends_at_least_interval_apart formatZero).
  - intros time inp Hin. cbn [In] in Hin.
    destruct Hin as [H|[H|[H|[H|H]]]]; try contradiction;
      injection H as <- <-; reflexivity.
  - cbn [map fst].
    repeat (constructor; [|repeat constructor; lia]). constructor.
Defined.

(** ** The posted document *)

Lemma string_app_assoc (a b c : string) :
  ((a ++ b) ++ c)%string = (a ++ b ++ c)%string.
Proof. induction a as [|ch a IH]; cbn; [reflexivity | now rewrite IH]. Qed.

(** The text built piece by piece in [sendToServer] is a JSON document: an
    object with the members [phase_r], [phase_y], [phase_b], each an object
    of the six numbers of phase 0, 1 and 2 in the order voltage, current,
    power_factor, real_power, apparent_power, reactive_power with 2, 3, 3,
    2, 2 and 2 decimal places, followed by the four numbers [overall_pf]
    (3 places) and [total_real_power], [total_apparent_power],
    [total_reactive_power] (2 places); no comma or brace is missing or
    doubled. *)
Theorem payload_is_document (formatFloat : R -> nat -> string)
    (phases : list PhaseData)
    (overallPF totalReal totalApparent totalReactive : R) :
  payload formatFloat phases overallPF totalReal totalApparent totalReactive
  = renderDocument
      [Object "phase_r" (phaseFields formatFloat (nth 0 phases zeroPhase));
       Object "phase_y" (phaseFields formatFloat (nth 1 phases zeroPhase));
       Object "phase_b" (phaseFields formatFloat (nth 2 phases zeroPhase));
       Number "overall_pf" (formatFloat overallPF 3%nat);
       Number "total_real_power" (formatFloat totalReal 2%nat);
       Number "total_apparent_power" (formatFloat totalApparent 2%nat);
       Number "total_reactive_power" (formatFloat totalReactive 2%nat)].
Proof.
  unfold payload, renderDocument, renderMember, renderField, phaseFields.
  cbn zeta.
  cbn [map String.concat fst snd].
  repeat rewrite string_app_assoc.
  reflexivity.
Qed.

(** ** The alert of a pass *)

Lemma loop_alert (reads : nat -> AnalogRead) :
  alertRaised (loop reads) = true
  <-> Exists (lowPF PF_THRESHOLD) (measureAll reads).
Proof.
  unfold loop.
  destruct (aggregate_fields PF_THRESHOLD (measureAll reads))
    as (_ & _ & Ha & _).
  rewrite Ha, fold_alert. cbn [anyLowPF initTotals].
  intuition discriminate.
Qed.

(** In a pass that sends, the LED is lit exactly when one of the three
    measured phases has a power factor strictly between 0.01 and
    [PF_THRESHOLD]; the flashes come before the post. *)
Theorem led_lit_iff_low_phase (formatFloat : R -> nat -> string)
    (lastSendTime : Z) (inp : PassInput) :
  wifiConnected inp = true ->
  (SEND_INTERVAL <= ulong (millisNow inp - lastSendTime))%Z ->
  let events := snd (loopPass formatFloat lastSendTime inp) in
  (In (DigitalWrite LED_PIN true) events
   <-> Exists (fun p => 0.01 < powerFactor p < PF_THRESHOLD)
              (measureAll (passReads inp)))
  /\ (In (DigitalWrite LED_PIN true) events ->
      exists body,
        events = (flashLed 3 100 ++ [HttpPost SERVER_URL body])%list).
Proof.
  intros Hup Hgate. cbn zeta. unfold loopPass. rewrite Hup. cbn [negb].
  destruct (_ <? _)%Z eqn:E; [apply Z.ltb_lt in E; lia|]. cbn [snd].
  pose proof (loop_alert (passReads inp)) as Halert.
  unfold lowPF, PF_EPSILON in Halert. rewrite <- Halert.
  destruct (alertRaised (loop (passReads inp))).
  - split; [split; [reflexivity | intros _; cbn; now left]|].
    intros _. eexists. reflexivity.
  - split.
    + split; [|discriminate]. unfold sendToServer. cbn [app In].
      intros [H|[]]. discriminate.
    + unfold sendToServer. cbn [app In]. intros [H|[]]. discriminate.
Qed.

Lemma led_lit_iff_low_phase_witness :
  let events := snd (loopPass formatZero 0 (idlePass 2000)) in
  (In (DigitalWrite LED_PIN true) events
   <-> Exists (fun p => 0.01 < powerFactor p < PF_THRESHOLD)
              (measureAll (passReads (idlePass 2000))))
  /\ (In (DigitalWrite LED_PIN true) events ->
      exists body,
        events = (flashLed 3 100 ++ [HttpPost SERVER_URL body])%list).
Proof.
  apply (led_lit_iff_low_phase formatZero 0 (idlePass 2000)).
  - reflexivity.
  - cbn. unfold SEND_INTERVAL. lia.
Defined.

(** ** The dead band in converter codes *)

Lemma ampsOf_dead_band (rawI : Z) :
  (2044 <= rawI <= 2051)%Z ->
  ampsOf rawI * ampsOf rawI <= Rsqr NOISE_FLOOR.
Proof.
  intros [H0 H1]. apply IZR_le in H0, H1.
  unfold ampsOf, ACS712_OFFSET, ADC_VREF, ADC_MAX, ACS712_SENSITIVITY,
    NOISE_FLOOR, Rsqr.
  assert (E : (IZR rawI / 4095.0 * 3.3 - 3.3 / 2.0) / 0.066
              = (2 * IZR rawI - 4095) * (25 / 4095)) by lra.
  rewrite E. nra.
Qed.

(** A current channel whose codes all stay within four codes of mid-scale
    (2044 to 2051, under 43 mA either way) is in the dead band: the phase
    reports no power and a power factor of 0, whatever the voltage. *)
Theorem dead_band_codes (analogRead : AnalogRead) (voltagePin currentPin : Z) :
  (forall k, (k < Z.to_nat totalSamples)%nat ->
             (2044 <= analogRead currentPin k <= 2051)%Z) ->
  let r := measurePhase analogRead voltagePin currentPin in
  currentRms r <= NOISE_FLOOR
  /\ realPower r = 0 /\ apparentPower r = 0 /\ reactivePower r = 0
  /\ powerFactor r = 0.
Proof.
  intros Hcodes. cbn zeta.
  assert (Hrms : currentRms (measurePhase analogRead voltagePin currentPin)
                 <= NOISE_FLOOR).
  { rewrite (proj2 (measurePhase_rms analogRead voltagePin currentPin)).
    rewrite <- (sqrt_Rsqr NOISE_FLOOR) by (unfold NOISE_FLOOR; lra).
    apply sqrt_le_1_alt.
    apply (mean_bounds _ 0 (Rsqr NOISE_FLOOR)). intros k Hk. split.
    - nra.
    - apply ampsOf_dead_band, Hcodes, Hk. }
  split; [exact Hrms|]. apply measurePhase_idle. exact Hrms.
Qed.

Lemma dead_band_codes_witness :
  let r := measurePhase (constantRead 0 2051 34) 34 35 in
  currentRms r <= NOISE_FLOOR
  /\ realPower r = 0 /\ apparentPower r = 0 /\ reactivePower r = 0
  /\ powerFactor r = 0.
Proof.
  apply (dead_band_codes (constantRead 0 2051 34) 34 35).
  intros k _. cbn. lia.
Defined.
